(** * PrimePlusNEW: the floating chat-window registry

    A model of [src/contexts/ChatContext.tsx] (the [ChatProvider]
    component): the list of open chat windows, the set of closed chats,
    the last-seen message cursor, the five operations the provider
    exports and the two snapshot handlers of its subscription effect.

    React state is modelled by explicit state passing.  A [setX(prev => ..)]
    call is a functional update of the current state; a value read from
    the render scope ([chatWindows], [closedChats], [lastSeenMessageIds]
    inside the effect's callbacks) is an explicit argument [cap], the
    state captured by the render in which the effect last ran. *)

From Stdlib Require Import ZArith.
From stdpp Require Import base decidable option list gmap strings.

Local Open Scope string_scope.
Local Open Scope list_scope.

(** ** JavaScript values

    Fields of a Firestore document are read through [any]; a field that
    is absent is [undefined], modelled by [None].  [a || b] yields [a]
    when [a] is truthy; [undefined], the empty string and [false] are
    falsy. *)

Definition Timestamp := Z.
Bind Scope Z_scope with Timestamp.

Definition truthy (v : option string) : bool :=
  match v with
  | Some s => negb (String.eqb s "")
  | None => false
  end.

(** [a || b] with [b] possibly undefined. *)
Definition or_opt (a b : option string) : option string :=
  if truthy a then a else b.

(** [a || d] with [d] a string literal or a defined string. *)
Definition or_else (a : option string) (d : string) : string :=
  match a with
  | Some s => if String.eqb s "" then d else s
  | None => d
  end.

(** [a || false] on an optional boolean. *)
Definition or_false (a : option bool) : bool :=
  match a with
  | Some true => true
  | _ => false
  end.

(** [a || Timestamp.now()]: a Timestamp object is always truthy. *)
Definition or_now (a : option Timestamp) (now : Timestamp) : Timestamp :=
  match a with
  | Some t => t
  | None => now
  end.

(** ** Data model *)

(** [UserProfile] as the provider builds it (lines 99-112). [displayName]
    and [username] may carry the message's [senderName], which can be
    undefined. *)
Module UserProfile.
Record t := mk {
  id : string;
  uid : string;
  displayName : option string;
  username : option string;
  photoURL : string;
  email : string;
  createdAt : Timestamp;
  updatedAt : Timestamp;
  isAgeVerified : bool;
  isVerified : bool;
  role : string;
  status : string
}.
End UserProfile.

(** [position: { x: number; y: number }]. The coordinates the provider
    computes are integers (viewport sizes minus multiples of 20). *)
Module Position.
Record t := mk { x : Z; y : Z }.
End Position.

Module ChatWindow.
Record t := mk {
  id : string;
  user : UserProfile.t;
  isMinimized : bool;
  position : Position.t;
  unreadCount : nat
}.

(** [{ ...window, isMinimized: b }] and its siblings. *)
Definition with_isMinimized (b : bool) (w : t) : t :=
  mk (id w) (user w) b (position w) (unreadCount w).
Definition with_position (p : Position.t) (w : t) : t :=
  mk (id w) (user w) (isMinimized w) p (unreadCount w).
Definition with_unreadCount (n : nat) (w : t) : t :=
  mk (id w) (user w) (isMinimized w) (position w) n.

(** [window.user.uid], the key every operation matches on. *)
Definition uid (w : t) : string := UserProfile.uid (user w).
End ChatWindow.

(** [window.innerWidth] and [window.innerHeight]. *)
Record Viewport := { innerWidth : Z; innerHeight : Z }.

(** The three pieces of [useState] of the provider. *)
Record Registry := {
  chatWindows : list ChatWindow.t;
  closedChats : gset string;
  lastSeenMessageIds : gmap string string
}.

Definition initial : Registry :=
  {| chatWindows := []; closedChats := ∅; lastSeenMessageIds := ∅ |}.

(** [window => window.user.uid === userId] *)
Definition is_for (userId : string) (w : ChatWindow.t) : Prop :=
  ChatWindow.uid w = userId.

Global Instance is_for_dec userId w : Decision (is_for userId w).
Proof. unfold is_for. apply _. Defined.

(** The invariant of the data model: at most one window per counterpart. *)
Definition unique_windows (ws : list ChatWindow.t) : Prop :=
  NoDup (ChatWindow.uid <$> ws).

Definition windows_for (userId : string) (ws : list ChatWindow.t) :
    list ChatWindow.t :=
  filter (is_for userId) ws.

(** ** Effects

    Every operation is a computation over the registry that records the
    state setters it calls and its remote calls, in program order.
    [ConsoleError] is a call of [console.error]; the [console.log]
    diagnostics of [openChat] and [closeChat] are not recorded. *)

Inductive Effect :=
  | SetChatWindows
  | SetClosedChats
  | SetLastSeenMessageIds
  | SetDocTypingNull (chatId : string)
  | GetDocsUnread (chatId : string) (senderId : string)
  | BatchCommit (refs : list string)
  | ConsoleError.

Global Instance Effect_eq_dec : EqDecision Effect.
Proof. solve_decision. Defined.

Definition M (A : Type) : Type := Registry → A * Registry * list Effect.

Global Instance M_ret : MRet M := λ A a s, (a, s, []).
Global Instance M_bind : MBind M := λ A B f m s,
  let '(a, s1, t1) := m s in
  let '(b, s2, t2) := f a s1 in
  (b, s2, t1 ++ t2).

Definition result {A} (r : A * Registry * list Effect) : A := r.1.1.
Definition final {A} (r : A * Registry * list Effect) : Registry := r.1.2.
Definition trace {A} (r : A * Registry * list Effect) : list Effect := r.2.

Definition setChatWindows (f : list ChatWindow.t → list ChatWindow.t) : M unit :=
  λ s, (tt, {| chatWindows := f (chatWindows s);
               closedChats := closedChats s;
               lastSeenMessageIds := lastSeenMessageIds s |}, [SetChatWindows]).

Definition setClosedChats (f : gset string → gset string) : M unit :=
  λ s, (tt, {| chatWindows := chatWindows s;
               closedChats := f (closedChats s);
               lastSeenMessageIds := lastSeenMessageIds s |}, [SetClosedChats]).

Definition setLastSeenMessageIds
    (f : gmap string string → gmap string string) : M unit :=
  λ s, (tt, {| chatWindows := chatWindows s;
               closedChats := closedChats s;
               lastSeenMessageIds := f (lastSeenMessageIds s) |},
        [SetLastSeenMessageIds]).

Definition emit (e : Effect) : M unit := λ s, (tt, s, [e]).

(** The outcome of a remote call that may reject. *)
Inductive Outcome (A : Type) :=
  | Resolved (a : A)
  | Rejected.
Arguments Resolved {A} a.
Arguments Rejected {A}.

(** ** Conversation identifier

    [[a, b].sort().join('_')]: the default sort compares the two strings
    code unit by code unit and is stable, so the pair is swapped exactly
    when the second is smaller than the first. User ids are strings of
    8-bit characters here. *)
Definition chatId_of (a b : string) : string :=
  if String.ltb b a then b +:+ "_" +:+ a else a +:+ "_" +:+ b.

(** ** Operations of the provider *)

(** Lines 190-194 and 151-154. *)
Definition newPosition (vp : Viewport) (prev : list ChatWindow.t) : Position.t :=
  {| Position.x := Z.max 0 (innerWidth vp - 320 - Z.of_nat (length prev) * 20);
     Position.y := Z.max 0 (innerHeight vp - 400 - Z.of_nat (length prev) * 20) |}.

(** The updater of [openChat] (lines 180-206). *)
Definition openChat_update (vp : Viewport) (user : UserProfile.t)
    (prev : list ChatWindow.t) : list ChatWindow.t :=
  if decide (Exists (is_for (UserProfile.uid user)) prev) then
    (λ w, if decide (is_for (UserProfile.uid user) w)
          then ChatWindow.with_unreadCount 0 (ChatWindow.with_isMinimized false w)
          else w) <$> prev
  else
    prev ++ [ {| ChatWindow.id := UserProfile.uid user;
                 ChatWindow.user := user;
                 ChatWindow.isMinimized := false;
                 ChatWindow.position := newPosition vp prev;
                 ChatWindow.unreadCount := 0 |} ].

(** The window [openChat] appends for [u] to a list of [n] windows, and
    what it does to a window when [u] already has one. *)
Definition opened_window (vp : Viewport) (u : UserProfile.t) (n : nat) :
    ChatWindow.t :=
  {| ChatWindow.id := UserProfile.uid u;
     ChatWindow.user := u;
     ChatWindow.isMinimized := false;
     ChatWindow.position :=
       {| Position.x := Z.max 0 (innerWidth vp - 320 - Z.of_nat n * 20);
          Position.y := Z.max 0 (innerHeight vp - 400 - Z.of_nat n * 20) |};
     ChatWindow.unreadCount := 0 |}.

Definition reopened (u : UserProfile.t) (w : ChatWindow.t) : ChatWindow.t :=
  if decide (is_for (UserProfile.uid u) w)
  then ChatWindow.with_unreadCount 0 (ChatWindow.with_isMinimized false w)
  else w.

Definition openChat (vp : Viewport) (user : UserProfile.t) : M unit :=
  setChatWindows (openChat_update vp user).

(** Successive [openChat] calls in one viewport. *)
Definition openChats (vp : Viewport) (users : list UserProfile.t)
    (s : Registry) : Registry :=
  foldl (λ s user, final (openChat vp user s)) s users.

(** [closeChat] (lines 209-232); [user] is the value of [useAuth] and
    [cleared] the outcome of the [setDoc] that clears the typing status,
    whose rejection goes to [console.error]. The [console.log] calls of
    lines 210, 214 and 221 are not recorded: [ConsoleError] stands for
    [console.error] alone. *)
Definition closeChat (user : option string) (cleared : Outcome unit)
    (userId : string) : M unit :=
  setChatWindows (filter (λ w, ¬ is_for userId w)) ;;
  setClosedChats (λ prev, prev ∪ {[ userId ]}) ;;
  match user with
  | Some me =>
      emit (SetDocTypingNull (chatId_of me userId)) ;;
      match cleared with
      | Rejected => emit ConsoleError
      | Resolved _ => mret tt
      end
  | None => mret tt
  end.

Definition minimizeChat (userId : string) : M unit :=
  setChatWindows (fmap (λ w,
    if decide (is_for userId w)
    then ChatWindow.with_isMinimized (negb (ChatWindow.isMinimized w)) w
    else w)).

Definition updatePosition (userId : string) (position : Position.t) : M unit :=
  setChatWindows (fmap (λ w,
    if decide (is_for userId w) then ChatWindow.with_position position w else w)).

(** [markAsRead] (lines 254-293). [currentUser] is [auth.currentUser];
    [unread] is the outcome of [getDocs] (the references of the unread
    messages) and [commit] the outcome of [batch.commit()]. Whatever is
    thrown inside the [try] is caught and logged. *)
Definition markAsRead (currentUser : option string)
    (unread : Outcome (list string)) (commit : Outcome unit)
    (userId : string) : M unit :=
  setChatWindows (fmap (λ w,
    if decide (is_for userId w) then ChatWindow.with_unreadCount 0 w else w)) ;;
  match currentUser with
  | None => mret tt
  | Some me =>
      emit (GetDocsUnread (chatId_of me userId) userId) ;;
      match unread with
      | Rejected => emit ConsoleError
      | Resolved [] => mret tt
      | Resolved refs =>
          emit (BatchCommit refs) ;;
          match commit with
          | Rejected => emit ConsoleError
          | Resolved _ => mret tt
          end
      end
  end.

(** ** The subscription effect (lines 50-176) *)

(** A document of [chats]: its id and [participants]. *)
Record ChatDoc := { chat_id : string; participants : list string }.

Global Instance ChatDoc_eq_dec : EqDecision ChatDoc.
Proof. solve_decision. Defined.

(** The fields of a message the handler reads. *)
Record MessageData := {
  senderId : string;
  senderName : option string;
  senderPhotoURL : option string
}.

(** A document of a message snapshot: [doc.id] and [doc.data()]. *)
Record MessageDoc := { doc_id : string; doc_data : MessageData }.

(** The data of a [users/{uid}] document. *)
Record ProfileData := {
  p_displayName : option string;
  p_username : option string;
  p_photoURL : option string;
  p_email : option string;
  p_createdAt : option Timestamp;
  p_updatedAt : option Timestamp;
  p_isAgeVerified : option bool;
  p_isVerified : option bool;
  p_role : option string;
  p_status : option string
}.

(** [participants.find((id) => id !== user.uid)] *)
Definition otherParticipantId (me : string) (chat : ChatDoc) : option string :=
  List.find (λ id, bool_decide (id ≠ me)) (participants chat).

(** Lines 65-71: whether the chats handler subscribes to the messages of
    [chat]. [cap] is the registry captured by the effect. *)
Definition listens (me : string) (cap : Registry) (chat : ChatDoc) : bool :=
  match otherParticipantId me chat with
  | None => false
  | Some other =>
      if String.eqb other "" then false
      else if decide (other ∈ closedChats cap) then false
      else true
  end.

(** The chats handler (lines 61-170): the message listeners it adds. *)
Definition onChatsSnapshot (me : string) (cap : Registry)
    (chats : list ChatDoc) : list ChatDoc :=
  List.filter (listens me cap) chats.

(** A handler invocation suspended at [await getDoc] (line 96). *)
Record Suspended := { s_senderId : string; s_messageData : MessageData }.

(** The message handler up to its first [await] or [return]
    (lines 78-92 and 159-166). [lastSeenMessageIds] and [chatWindows] are
    read from [cap]; the setters act on the current state. *)
Definition onMessagesSnapshot (me : string) (cap : Registry) (chatId : string)
    (docs : list MessageDoc) : M (option Suspended) :=
  match docs with
  | [] => mret None
  | latestDoc :: _ =>
      let messageData := doc_data latestDoc in
      if decide (senderId messageData = me) then mret None
      else if decide (lastSeenMessageIds cap !! chatId = Some (doc_id latestDoc))
      then mret None
      else
        setLastSeenMessageIds (λ prev, <[chatId := doc_id latestDoc]> prev) ;;
        match list_find (is_for (senderId messageData)) (chatWindows cap) with
        | None =>
            mret (Some {| s_senderId := senderId messageData;
                          s_messageData := messageData |})
        | Some _ =>
            setChatWindows (fmap (λ w,
              if decide (is_for (senderId messageData) w)
              then ChatWindow.with_unreadCount (ChatWindow.unreadCount w + 1) w
              else w)) ;;
            mret None
        end
  end.

(** Lines 94-144: the profile of the sender. [fetch] is the outcome of
    [getDoc]: rejected, resolved without a document, or resolved with
    one. [now1] and [now2] are the two readings of [Timestamp.now()]. *)
Definition senderUser (fetch : Outcome (option ProfileData))
    (now1 now2 : Timestamp) (senderId : string) (messageData : MessageData) :
    UserProfile.t :=
  match fetch with
  | Resolved (Some senderProfile) =>
      {| UserProfile.id := senderId;
         UserProfile.uid := senderId;
         UserProfile.displayName :=
           or_opt (p_displayName senderProfile) (senderName messageData);
         UserProfile.username := Some (or_else (p_username senderProfile) senderId);
         UserProfile.photoURL :=
           or_else (or_opt (p_photoURL senderProfile) (senderPhotoURL messageData)) "";
         UserProfile.email := or_else (p_email senderProfile) "";
         UserProfile.createdAt := or_now (p_createdAt senderProfile) now1;
         UserProfile.updatedAt := or_now (p_updatedAt senderProfile) now2;
         UserProfile.isAgeVerified := or_false (p_isAgeVerified senderProfile);
         UserProfile.isVerified := or_false (p_isVerified senderProfile);
         UserProfile.role := or_else (p_role senderProfile) "user";
         UserProfile.status := or_else (p_status senderProfile) "active" |}
  | Resolved None =>
      {| UserProfile.id := senderId;
         UserProfile.uid := senderId;
         UserProfile.displayName := senderName messageData;
         UserProfile.username := senderName messageData;
         UserProfile.photoURL := or_else (senderPhotoURL messageData) "";
         UserProfile.email := "";
         UserProfile.createdAt := now1;
         UserProfile.updatedAt := now2;
         UserProfile.isAgeVerified := false;
         UserProfile.isVerified := false;
         UserProfile.role := "user";
         UserProfile.status := "active" |}
  | Rejected =>
      {| UserProfile.id := senderId;
         UserProfile.uid := senderId;
         UserProfile.displayName := senderName messageData;
         UserProfile.username := senderName messageData;
         UserProfile.photoURL := or_else (senderPhotoURL messageData) "";
         UserProfile.email := "";
         UserProfile.createdAt := now1;
         UserProfile.updatedAt := now2;
         UserProfile.isAgeVerified := false;
         UserProfile.isVerified := false;
         UserProfile.role := "user";
         UserProfile.status := "active" |}
  end.

(** The rest of the message handler, after [await getDoc] settles
    (lines 97-158): the window is appended to the state of that moment. *)
Definition onProfileFetched (vp : Viewport)
    (fetch : Outcome (option ProfileData)) (now1 now2 : Timestamp)
    (p : Suspended) : M unit :=
  let senderUser := senderUser fetch now1 now2 (s_senderId p) (s_messageData p) in
  setChatWindows (λ prev,
    prev ++ [ {| ChatWindow.id := s_senderId p;
                 ChatWindow.user := senderUser;
                 ChatWindow.isMinimized := true;
                 ChatWindow.position := newPosition vp prev;
                 ChatWindow.unreadCount := 1 |} ]).

(** ** The provider as a reactive system

    [registry] is the React state. [captured] is the state the live
    listeners close over: the constants [chatWindows], [closedChats] and
    [lastSeenMessageIds] of the render in which the effect last ran.
    The effect depends on [user], [chatWindows] and [closedChats]
    (line 176). Every [setChatWindows] and [setClosedChats] call of the
    provider stores a new array or Set, so each of them re-runs the
    effect: the cleanup releases every listener (lines 173-175) and the
    listeners subscribed afterwards close over the new state; the re-run
    is taken to happen before the next input. [user] is the signed-in
    user throughout. [setLastSeenMessageIds] alone does not re-run the
    effect: the listeners stay, with the closure they have. A handler
    invocation suspended at [await] is not cancelled by the cleanup. *)
Record System := {
  registry : Registry;
  captured : Registry;
  listeners : list ChatDoc;
  suspended : list Suspended
}.

Definition start : System :=
  {| registry := initial; captured := initial; listeners := []; suspended := [] |}.

Inductive Input :=
  | OpenChat (vp : Viewport) (user : UserProfile.t)
  | CloseChat (userId : string) (cleared : Outcome unit)
  | MinimizeChat (userId : string)
  | UpdatePosition (userId : string) (position : Position.t)
  | MarkAsRead (userId : string) (unread : Outcome (list string))
      (commit : Outcome unit)
  | ChatsSnapshot (chats : list ChatDoc)
  | MessagesSnapshot (chat : ChatDoc) (docs : list MessageDoc)
  | ProfileFetched (k : nat) (vp : Viewport)
      (fetch : Outcome (option ProfileData)) (now1 now2 : Timestamp).

Definition reruns_effect (t : list Effect) : bool :=
  bool_decide (SetChatWindows ∈ t ∨ SetClosedChats ∈ t).

Definition settle (sys : System) (r : Registry) (t : list Effect)
    (pending : list Suspended) : System :=
  if reruns_effect t
  then {| registry := r; captured := r; listeners := []; suspended := pending |}
  else {| registry := r; captured := captured sys;
          listeners := listeners sys; suspended := pending |}.

Definition perform (sys : System) (m : M unit) : System :=
  let r := m (registry sys) in
  settle sys (final r) (trace r) (suspended sys).

(** One input of the signed-in user [me]. A message snapshot reaches the
    handler only through a live listener; [ProfileFetched k] resumes the
    [k]-th suspended invocation. *)
Definition step (me : string) (sys : System) (i : Input) : System :=
  match i with
  | OpenChat vp user => perform sys (openChat vp user)
  | CloseChat userId cleared => perform sys (closeChat (Some me) cleared userId)
  | MinimizeChat userId => perform sys (minimizeChat userId)
  | UpdatePosition userId position => perform sys (updatePosition userId position)
  | MarkAsRead userId unread commit =>
      perform sys (markAsRead (Some me) unread commit userId)
  | ChatsSnapshot chats =>
      {| registry := registry sys; captured := captured sys;
         listeners := listeners sys ++ onChatsSnapshot me (captured sys) chats;
         suspended := suspended sys |}
  | MessagesSnapshot chat docs =>
      if decide (chat ∈ listeners sys) then
        let r := onMessagesSnapshot me (captured sys) (chat_id chat) docs
                   (registry sys) in
        settle sys (final r) (trace r)
          (suspended sys ++ from_option (λ p, [p]) [] (result r))
      else sys
  | ProfileFetched k vp fetch now1 now2 =>
      match suspended sys !! k with
      | None => sys
      | Some p =>
          let r := onProfileFetched vp fetch now1 now2 p (registry sys) in
          settle sys (final r) (trace r) (delete k (suspended sys))
      end
  end.

Definition run (me : string) (sys : System) (inputs : list Input) : System :=
  foldl (step me) sys inputs.

(** A message snapshot of a two-party conversation: its latest message is
    sent by the signed-in user or by the counterpart. *)
Definition two_party (me : string) (i : Input) : Prop :=
  match i with
  | MessagesSnapshot chat (latestDoc :: _) =>
      senderId (doc_data latestDoc) = me ∨
      otherParticipantId me chat = Some (senderId (doc_data latestDoc))
  | _ => True
  end.

(** The user opens the chat with [U] explicitly. *)
Definition reopens (U : string) (i : Input) : Prop :=
  match i with
  | OpenChat _ user => UserProfile.uid user = U
  | _ => False
  end.

(** [U] is closed and nothing can bring a window for [U] back: no
    listener on the conversation with [U], no suspended handler for a
    message of [U], no window of [U]. *)
Definition suppressed (me U : string) (sys : System) : Prop :=
  U ∈ closedChats (registry sys) ∧
  U ∈ closedChats (captured sys) ∧
  Forall (λ chat, otherParticipantId me chat ≠ Some U) (listeners sys) ∧
  Forall (λ p, s_senderId p ≠ U) (suspended sys) ∧
  Forall (λ w, ¬ is_for U w) (chatWindows (registry sys)).

(** ** A session used in the examples

    Alice is signed in; Bob writes to her in the conversation
    [alice_bob]. *)
Module Session.
Definition viewport : Viewport := {| innerWidth := 1280; innerHeight := 800 |}.

Definition conversation : ChatDoc :=
  {| chat_id := "alice_bob"; participants := ["alice"; "bob"] |}.

Definition m1 : MessageDoc :=
  {| doc_id := "m1";
     doc_data := {| senderId := "bob";
                    senderName := Some "Bob";
                    senderPhotoURL := None |} |}.

Definition bob : UserProfile.t :=
  {| UserProfile.id := "bob";
     UserProfile.uid := "bob";
     UserProfile.displayName := Some "Bob";
     UserProfile.username := Some "bob";
     UserProfile.photoURL := "";
     UserProfile.email := "bob@example.org";
     UserProfile.createdAt := 0;
     UserProfile.updatedAt := 0;
     UserProfile.isAgeVerified := true;
     UserProfile.isVerified := false;
     UserProfile.role := "user";
     UserProfile.status := "active" |}.

Definition carol : UserProfile.t :=
  {| UserProfile.id := "carol";
     UserProfile.uid := "carol";
     UserProfile.displayName := Some "Carol";
     UserProfile.username := Some "carol";
     UserProfile.photoURL := "";
     UserProfile.email := "";
     UserProfile.createdAt := 0;
     UserProfile.updatedAt := 0;
     UserProfile.isAgeVerified := false;
     UserProfile.isVerified := true;
     UserProfile.role := "creator";
     UserProfile.status := "active" |}.

Definition m2 : MessageDoc :=
  {| doc_id := "m2";
     doc_data := {| senderId := "bob";
                    senderName := Some "Bob";
                    senderPhotoURL := Some "https://example.org/bob.png" |} |}.

Definition dave : UserProfile.t :=
  {| UserProfile.id := "dave";
     UserProfile.uid := "dave";
     UserProfile.displayName := Some "Dave";
     UserProfile.username := Some "dave";
     UserProfile.photoURL := "";
     UserProfile.email := "";
     UserProfile.createdAt := 0;
     UserProfile.updatedAt := 0;
     UserProfile.isAgeVerified := false;
     UserProfile.isVerified := false;
     UserProfile.role := "user";
     UserProfile.status := "active" |}.

(** Bob writes [m1], then [m2], then deletes [m2]: the latest message is
    [m1] again. *)
Definition write_write_delete : list (MessageDoc * list MessageDoc) :=
  [ (m1, []); (m2, [m1]); (m1, []) ].

(** The same snapshot reaches the listener twice while the profile of
    Bob is being fetched; then both lookups settle. *)
Definition redelivery : list Input :=
  [ ChatsSnapshot [conversation];
    MessagesSnapshot conversation [m1];
    MessagesSnapshot conversation [m1];
    ProfileFetched 0 viewport Rejected 1 1;
    ProfileFetched 0 viewport Rejected 2 2 ].

(** Alice opens the chat with Bob while the profile of Bob is being
    fetched for his message. *)
Definition open_while_fetching : list Input :=
  [ ChatsSnapshot [conversation];
    MessagesSnapshot conversation [m1];
    OpenChat viewport bob;
    ProfileFetched 0 viewport (Resolved None) 1 1 ].

(** Then she opens the chat with Bob, twice. *)
Definition open_twice : list Input :=
  [ OpenChat viewport bob; OpenChat viewport bob ].

(** The lookup settles before the snapshot comes again, through the
    listener the re-run effect subscribed. *)
Definition redelivery_after_lookup : list Input :=
  [ ChatsSnapshot [conversation];
    MessagesSnapshot conversation [m1];
    ProfileFetched 0 viewport Rejected 1 1;
    ChatsSnapshot [conversation];
    MessagesSnapshot conversation [m1] ].

(** After Alice closed the chat with Bob: the effect re-subscribes and
    Bob writes. *)
Definition after_close : list Input :=
  [ ChatsSnapshot [conversation];
    MessagesSnapshot conversation [m1];
    MinimizeChat "bob" ].
End Session.

(** ** Inputs of the system, by kind *)

(** The five operations the provider exports. *)
Definition is_operation (i : Input) : bool :=
  match i with
  | OpenChat _ _ | CloseChat _ _ | MinimizeChat _ | UpdatePosition _ _
  | MarkAsRead _ _ _ => true
  | ChatsSnapshot _ | MessagesSnapshot _ _ | ProfileFetched _ _ _ _ _ => false
  end.

(** Each id of [ids] differs from the one before it, the first from
    [last]. *)
Fixpoint alternating (last : option string) (ids : list string) : Prop :=
  match ids with
  | [] => True
  | id :: rest => last ≠ Some id ∧ alternating (Some id) rest
  end.

(** The effect has just re-run: the chats snapshot [chats] arrives, then
    a message snapshot of [chat]; once for each snapshot of [snaps]. *)
Definition deliveries (chats : list ChatDoc) (chat : ChatDoc)
    (snaps : list (MessageDoc * list MessageDoc)) : list Input :=
  snaps ≫= λ snap, [ChatsSnapshot chats; MessagesSnapshot chat (snap.1 :: snap.2)].

(** The users closed by the [closeChat] calls of [inputs]. *)
Definition closed_by (inputs : list Input) : list string :=
  omap (λ i, match i with CloseChat U _ => Some U | _ => None end) inputs.

(** ** RightSidebar

    [src/components/RightSidebar.tsx]: one piece of state,
    [isMessagePopupOpen], whose setter is called in [onClose] only; the
    path name decides whether [SuggestedCreators] is rendered. *)
Module RightSidebar.
Record Topic := { topic_id : string; name : string; postCount : nat }.

Record Props := {
  suggestedCreators : list UserProfile.t;
  trendingTopics : list Topic;
  isLoading : bool
}.

(** What the component returns: whether [SuggestedCreators] is in the
    tree, and the [isOpen] property of [MessagePopup]. *)
Record View := { showsSuggestedCreators : bool; popupIsOpen : bool }.

(** [useState(false)] *)
Definition mount : bool := false.

(** [onClose={() => setIsMessagePopupOpen(false)}] *)
Definition onClose (isMessagePopupOpen : bool) : bool := false.

Definition render (props : Props) (pathname : string)
    (isMessagePopupOpen : bool) : View :=
  let isMessagesPage := String.eqb pathname "/messages" in
  {| showsSuggestedCreators := negb isMessagesPage;
     popupIsOpen := isMessagePopupOpen |}.

(** What happens to a mounted sidebar: the popup asks to close, or the
    component renders again with other properties or another path. *)
Inductive Event :=
  | Close
  | Update (props : Props) (pathname : string).

Record Mounted := {
  props : Props;
  pathname : string;
  isMessagePopupOpen : bool
}.

Definition step (m : Mounted) (e : Event) : Mounted :=
  match e with
  | Close =>
      {| props := props m; pathname := pathname m;
         isMessagePopupOpen := onClose (isMessagePopupOpen m) |}
  | Update props' pathname' =>
      {| props := props'; pathname := pathname';
         isMessagePopupOpen := isMessagePopupOpen m |}
  end.

Definition view (m : Mounted) : View :=
  render (props m) (pathname m) (isMessagePopupOpen m).
End RightSidebar.

(** * Properties *)

(** Unfolds the computation of an operation down to its triple. *)
Ltac unfold_m :=
  unfold openChat, closeChat, minimizeChat, updatePosition, markAsRead,
    onMessagesSnapshot, onProfileFetched, result, final, trace,
    mbind, M_bind, mret, M_ret,
    setChatWindows, setClosedChats, setLastSeenMessageIds, emit in *.

Ltac solve_elem :=
  rewrite ?elem_of_cons, ?elem_of_nil; intuition congruence.

(** ** Windows and their keys *)

Section windows.
Implicit Types (w : ChatWindow.t) (ws prev : list ChatWindow.t).
Implicit Types (U : string).

Lemma uid_with_isMinimized b w :
  ChatWindow.uid (ChatWindow.with_isMinimized b w) = ChatWindow.uid w.
Proof. reflexivity. Qed.

Lemma uid_with_unreadCount n w :
  ChatWindow.uid (ChatWindow.with_unreadCount n w) = ChatWindow.uid w.
Proof. reflexivity. Qed.

Lemma uid_with_position p w :
  ChatWindow.uid (ChatWindow.with_position p w) = ChatWindow.uid w.
Proof. reflexivity. Qed.

(** A [prev.map] that rewrites only fields other than [user] keeps the
    list of keys. *)
Lemma uids_fmap_keyed (f : ChatWindow.t → ChatWindow.t) ws :
  (∀ w, ChatWindow.uid (f w) = ChatWindow.uid w) →
  ChatWindow.uid <$> (f <$> ws) = ChatWindow.uid <$> ws.
Proof.
  intros Hf. rewrite <- list_fmap_compose. apply list_fmap_ext.
  intros _ w _. apply Hf.
Qed.

Lemma has_window_uids U ws :
  Exists (is_for U) ws ↔ U ∈ ChatWindow.uid <$> ws.
Proof.
  rewrite Exists_exists, list_elem_of_fmap. unfold is_for.
  split; [intros (w & Hw & <-)|intros (w & -> & Hw)]; eauto.
Qed.

Lemma no_window_uids U ws :
  Forall (λ w, ¬ is_for U w) ws ↔ U ∉ ChatWindow.uid <$> ws.
Proof.
  rewrite <- has_window_uids, <- Forall_Exists_neg. reflexivity.
Qed.

Lemma windows_for_absent U ws :
  Forall (λ w, ¬ is_for U w) ws → windows_for U ws = [].
Proof.
  unfold windows_for. induction 1 as [|w ws Hw _ IH]; [done|].
  rewrite filter_cons_False; done.
Qed.

(** Under the invariant a user that has a window has exactly one. *)
Lemma windows_for_unique U ws :
  unique_windows ws → Exists (is_for U) ws → ∃ w, windows_for U ws = [w].
Proof.
  unfold unique_windows, windows_for.
  induction ws as [|w ws IH]; intros Hnd Hex; [by apply Exists_nil in Hex|].
  rewrite fmap_cons in Hnd. apply NoDup_cons in Hnd as [Hw Hnd].
  destruct (decide (is_for U w)) as [Hin|Hout].
  - exists w. rewrite filter_cons_True by done. f_equal.
    apply windows_for_absent, no_window_uids.
    unfold is_for in Hin. by rewrite <- Hin.
  - rewrite filter_cons_False by done. apply IH; [done|].
    by apply Exists_cons in Hex as [?|?].
Qed.

Lemma filter_out_keeps ws U :
  Forall (λ w, ¬ is_for U w) ws → filter (λ w, ¬ is_for U w) ws = ws.
Proof.
  induction 1 as [|w ws Hw _ IH]; [done|].
  rewrite filter_cons_True by done. by rewrite IH.
Qed.
End windows.

(** ** Conversation identifier *)

Lemma chatId_of_sym (a b : string) : chatId_of a b = chatId_of b a.
Proof.
  unfold chatId_of, String.ltb.
  rewrite (String.compare_antisym a b).
  destruct (String.compare b a) eqn:Hab; simpl; try reflexivity.
  apply String.compare_eq_iff in Hab. by subst.
Qed.

(** C9. The conversation identifier does not depend on the order of the
    two participants, and [closeChat] (typing indicator) and
    [markAsRead] (unread messages) of the same signed-in user address the
    conversation with [U] by that same identifier. *)
Theorem chatId_symmetric_and_shared (me U : string) (cleared : Outcome unit)
    (unread : Outcome (list string)) (commit : Outcome unit) (s s' : Registry) :
  chatId_of me U = chatId_of U me ∧
  (∀ cid, SetDocTypingNull cid ∈ trace (closeChat (Some me) cleared U s) ↔
          cid = chatId_of me U) ∧
  (∀ cid sender,
     GetDocsUnread cid sender ∈ trace (markAsRead (Some me) unread commit U s') ↔
     cid = chatId_of U me ∧ sender = U).
Proof.
  split; [apply chatId_of_sym|]. split.
  - intros cid. unfold_m. destruct cleared; simpl; solve_elem.
  - intros cid sender. rewrite (chatId_of_sym U me). unfold_m.
    destruct unread as [[|ref refs]|], commit as [[]|]; simpl; solve_elem.
Qed.

(** ** openChat *)

Section openChat.
Context (vp : Viewport) (u : UserProfile.t).
Implicit Types (w : ChatWindow.t) (ws : list ChatWindow.t).

Let U := UserProfile.uid u.

Lemma openChat_update_existing ws :
  Exists (is_for U) ws → openChat_update vp u ws = reopened u <$> ws.
Proof. intros H. unfold openChat_update. by rewrite decide_True. Qed.

Lemma openChat_update_new ws :
  Forall (λ w, ¬ is_for U w) ws →
  openChat_update vp u ws = ws ++ [opened_window vp u (length ws)].
Proof.
  intros H. unfold openChat_update. rewrite decide_False; [done|].
  by apply Forall_Exists_neg.
Qed.

Lemma uid_reopened w : ChatWindow.uid (reopened u w) = ChatWindow.uid w.
Proof. unfold reopened. by case_decide. Qed.

Lemma openChat_update_has ws : Exists (is_for U) (openChat_update vp u ws).
Proof.
  destruct (decide (Exists (is_for U) ws)) as [Hex|Hno].
  - rewrite openChat_update_existing by done.
    apply has_window_uids. rewrite uids_fmap_keyed by apply uid_reopened.
    by apply has_window_uids.
  - rewrite openChat_update_new by by apply Forall_Exists_neg.
    apply Exists_app. right. by apply Exists_cons_hd.
Qed.

Lemma openChat_update_opened ws :
  Forall (λ w, is_for U w →
               ChatWindow.isMinimized w = false ∧ ChatWindow.unreadCount w = 0)
         (openChat_update vp u ws).
Proof.
  destruct (decide (Exists (is_for U) ws)) as [Hex|Hno].
  - rewrite openChat_update_existing by done.
    apply Forall_fmap, Forall_forall. intros w _. simpl.
    unfold reopened. by case_decide.
  - rewrite openChat_update_new by by apply Forall_Exists_neg.
    apply Forall_app. split; [|by repeat constructor].
    apply Forall_Exists_neg in Hno. eapply Forall_impl; [exact Hno|].
    intros w Hw ?. by destruct Hw.
Qed.

Lemma openChat_update_unique ws :
  unique_windows ws → unique_windows (openChat_update vp u ws).
Proof.
  unfold unique_windows. intros Hnd.
  destruct (decide (Exists (is_for U) ws)) as [Hex|Hno].
  - rewrite openChat_update_existing by done.
    by rewrite uids_fmap_keyed by apply uid_reopened.
  - apply Forall_Exists_neg in Hno.
    rewrite openChat_update_new by done. rewrite fmap_app.
    apply NoDup_app. split_and!; [done| |apply NoDup_singleton].
    intros x Hx. cbn. rewrite list_elem_of_singleton. intros ->.
    by apply no_window_uids in Hno.
Qed.

Lemma openChat_closedChats s :
  closedChats (final (openChat vp u s)) = closedChats s.
Proof. reflexivity. Qed.
End openChat.

Lemma reopened_fixed (u : UserProfile.t) (w : ChatWindow.t) :
  (is_for (UserProfile.uid u) w →
   ChatWindow.isMinimized w = false ∧ ChatWindow.unreadCount w = 0) →
  reopened u w = w.
Proof.
  unfold reopened. case_decide; [|done]. intros [Hm Hc]; [done|].
  destruct w; simpl in *. by subst.
Qed.

(** Opening an open chat again, for the same user id, gives back the same
    window list. *)
Lemma openChat_update_idem (vp vp' : Viewport) (u u' : UserProfile.t)
    (ws : list ChatWindow.t) :
  UserProfile.uid u' = UserProfile.uid u →
  openChat_update vp' u' (openChat_update vp u ws) = openChat_update vp u ws.
Proof.
  intros Huid.
  rewrite openChat_update_existing
    by (rewrite Huid; apply openChat_update_has).
  rewrite <- (list_fmap_id (openChat_update vp u ws)) at 2.
  apply Forall_fmap_ext.
  eapply Forall_impl; [apply (openChat_update_opened vp u)|].
  intros w Hw. simpl. apply reopened_fixed. by rewrite Huid.
Qed.

Lemma windows_for_fmap_keyed (U : string) (f : ChatWindow.t → ChatWindow.t)
    (ws : list ChatWindow.t) :
  (∀ w, ChatWindow.uid (f w) = ChatWindow.uid w) →
  length (windows_for U (f <$> ws)) = length (windows_for U ws).
Proof.
  intros Hf. unfold windows_for. induction ws as [|w ws IH]; [done|].
  rewrite fmap_cons, !filter_cons.
  destruct (decide (is_for U w)) as [Hw|Hw].
  - rewrite decide_True by (unfold is_for; by rewrite Hf). simpl. by rewrite IH.
  - rewrite decide_False by (unfold is_for; by rewrite Hf). done.
Qed.

Lemma windows_for_present (U : string) (ws : list ChatWindow.t) :
  Exists (is_for U) ws → (0 < length (windows_for U ws))%nat.
Proof.
  intros (w & Hin & Hw)%Exists_exists.
  assert (Hf : w ∈ windows_for U ws) by by apply list_elem_of_filter.
  destruct (windows_for U ws); [by apply elem_of_nil in Hf|simpl; lia].
Qed.

Lemma unique_windows_for (U : string) (ws : list ChatWindow.t) :
  unique_windows ws → (length (windows_for U ws) ≤ 1)%nat.
Proof.
  intros Hnd. destruct (decide (Exists (is_for U) ws)) as [Hex|Hno].
  - destruct (windows_for_unique U ws Hnd Hex) as [w ->]. done.
  - apply Forall_Exists_neg in Hno. rewrite windows_for_absent by done.
    simpl. lia.
Qed.

(** After [openChat] a user with at most one window has exactly one. *)
Lemma openChat_update_single (vp : Viewport) (u : UserProfile.t)
    (ws : list ChatWindow.t) :
  (length (windows_for (UserProfile.uid u) ws) ≤ 1)%nat →
  ∃ w, windows_for (UserProfile.uid u) (openChat_update vp u ws) = [w].
Proof.
  intros Hone. destruct (decide (Exists (is_for (UserProfile.uid u)) ws))
    as [Hex|Hno].
  - rewrite openChat_update_existing by done.
    pose proof (windows_for_present _ _ Hex) as Hpos.
    pose proof (windows_for_fmap_keyed (UserProfile.uid u) (reopened u) ws
                  (uid_reopened u)) as Hlen.
    destruct (windows_for _ (reopened u <$> ws)) as [|w [|w' rest]];
      simpl in Hlen; [lia|by exists w|lia].
  - apply Forall_Exists_neg in Hno.
    rewrite openChat_update_new by done.
    unfold windows_for. rewrite filter_app.
    fold (windows_for (UserProfile.uid u) ws).
    rewrite windows_for_absent by done.
    rewrite filter_cons_True by reflexivity. by eexists.
Qed.

(** From a state in which [U] has at most one window, [openChat(U)]
    followed by [openChat(U)] leaves exactly one window for [U], not
    minimized and with no unread message; the second call changes
    nothing, and a window list with at most one window per user stays
    so. *)
Theorem openChat_twice_idempotent (vp : Viewport) (u : UserProfile.t)
    (s : Registry) :
  (length (windows_for (UserProfile.uid u) (chatWindows s)) ≤ 1)%nat →
  let once := final (openChat vp u s) in
  let twice := final (openChat vp u once) in
  twice = once ∧
  (∃ w, windows_for (UserProfile.uid u) (chatWindows twice) = [w] ∧
        ChatWindow.isMinimized w = false ∧
        ChatWindow.unreadCount w = 0) ∧
  (unique_windows (chatWindows s) → unique_windows (chatWindows twice)).
Proof.
  intros Hone once twice.
  assert (Heq : twice = once).
  { subst twice once. unfold_m. simpl. f_equal.
    by apply openChat_update_idem. }
  rewrite Heq. subst once. unfold_m. simpl.
  split_and!; [done| |apply openChat_update_unique].
  destruct (openChat_update_single vp u _ Hone) as [w Hw].
  exists w. split; [done|].
  assert (Hin : w ∈ windows_for (UserProfile.uid u)
                     (openChat_update vp u (chatWindows s))).
  { rewrite Hw. by apply list_elem_of_here. }
  apply list_elem_of_filter in Hin as [Hfor Hin].
  pose proof (openChat_update_opened vp u (chatWindows s)) as Hall.
  rewrite Forall_forall in Hall. by apply Hall.
Qed.

(** ** Layout of successive windows *)

Lemma openChats_fresh (vp : Viewport) (users : list UserProfile.t) (s : Registry) :
  NoDup (UserProfile.uid <$> users) →
  (∀ u, u ∈ users → Forall (λ w, ¬ is_for (UserProfile.uid u) w) (chatWindows s)) →
  chatWindows (openChats vp users s) =
  chatWindows s ++
    imap (λ k u, opened_window vp u (length (chatWindows s) + k)) users.
Proof.
  revert s. induction users as [|u us IH]; intros s Hnd Hfresh.
  { simpl. by rewrite app_nil_r. }
  rewrite fmap_cons in Hnd. apply NoDup_cons in Hnd as [Hu Hnd].
  assert (Hstep : chatWindows (final (openChat vp u s)) =
                  chatWindows s ++ [opened_window vp u (length (chatWindows s))]).
  { unfold_m. simpl. apply openChat_update_new, Hfresh, list_elem_of_here. }
  unfold openChats. simpl. fold (openChats vp us (final (openChat vp u s))).
  rewrite IH; [|done|].
  - rewrite Hstep, <- app_assoc. f_equal. simpl.
    rewrite Nat.add_0_r. f_equal. apply imap_ext. intros k u' _. simpl.
    rewrite length_app. simpl. f_equal. lia.
  - intros u' Hu'. rewrite Hstep. apply Forall_app. split.
    + apply Hfresh. by apply list_elem_of_further.
    + repeat constructor. intros Heq. apply Hu.
      change (UserProfile.uid u = UserProfile.uid u') in Heq.
      rewrite Heq. by apply list_elem_of_fmap_2.
Qed.

(** C7. [N] calls of [openChat] for pairwise distinct users, starting
    without windows: the [k]-th window belongs to the [k]-th user and sits
    at [max 0 (innerWidth - 320 - 20k)], [max 0 (innerHeight - 400 - 20k)].
    Each coordinate is the previous window's minus 20, floored at 0: it
    is never negative, it strictly decreases as long as the previous one
    is positive, and an unfloored window lies 20 units further from the
    right and bottom edges than its predecessor. *)
Theorem openChat_cascade (vp : Viewport) (users : list UserProfile.t) :
  NoDup (UserProfile.uid <$> users) →
  let ws := chatWindows (openChats vp users initial) in
  length ws = length users ∧
  (∀ k u, users !! k = Some u → ws !! k = Some (opened_window vp u k)) ∧
  (∀ k w w', ws !! k = Some w → ws !! S k = Some w' →
     let p := ChatWindow.position w in
     let p' := ChatWindow.position w' in
     Position.x p' = Z.max 0 (Position.x p - 20) ∧
     Position.y p' = Z.max 0 (Position.y p - 20) ∧
     (0 < Position.x p → Position.x p' < Position.x p)%Z ∧
     (0 < Position.y p → Position.y p' < Position.y p)%Z ∧
     (0 < Position.x p' →
      innerWidth vp - Position.x p' = innerWidth vp - Position.x p + 20)%Z ∧
     (0 < Position.y p' →
      innerHeight vp - Position.y p' = innerHeight vp - Position.y p + 20)%Z).
Proof.
  intros Hnd ws.
  assert (Hws : ws = imap (λ k u, opened_window vp u k) users).
  { subst ws. rewrite openChats_fresh; [done|done|].
    intros u _. constructor. }
  assert (Hlookup : ∀ k u, users !! k = Some u →
                           ws !! k = Some (opened_window vp u k)).
  { intros k u Hk. by rewrite Hws, list_lookup_imap, Hk. }
  split_and!; [by rewrite Hws, length_imap|done|].
  intros k w w' Hw Hw'.
  rewrite Hws, list_lookup_imap in Hw, Hw'.
  destruct (users !! k) as [u|]; [|done].
  destruct (users !! S k) as [u'|]; [|done].
  simpl in Hw, Hw'. injection Hw as <-. injection Hw' as <-.
  cbn. lia.
Qed.

(** ** markAsRead *)

Lemma markAsRead_chatWindows (currentUser : option string)
    (unread : Outcome (list string)) (commit : Outcome unit) (U : string)
    (s : Registry) :
  chatWindows (final (markAsRead currentUser unread commit U s)) =
    (λ w, if decide (is_for U w) then ChatWindow.with_unreadCount 0 w else w)
      <$> chatWindows s.
Proof. unfold_m. by destruct currentUser, unread as [[|??]|], commit. Qed.

(** C6. [markAsRead(U)] zeroes the unread count of the window of [U] as
    its first action, before any remote call; the registry it leaves does
    not depend on the signed-in user nor on whether the query or the
    batch commit resolve or reject, and the window list is not written
    again after the remote calls. *)
Theorem markAsRead_zeroes_locally (currentUser : option string)
    (unread : Outcome (list string)) (commit : Outcome unit) (U : string)
    (s : Registry) :
  let r := markAsRead currentUser unread commit U s in
  chatWindows (final r) =
    (λ w, if decide (is_for U w) then ChatWindow.with_unreadCount 0 w else w)
      <$> chatWindows s ∧
  Forall (λ w, is_for U w → ChatWindow.unreadCount w = 0) (chatWindows (final r)) ∧
  (∃ rest, trace r = SetChatWindows :: rest ∧ SetChatWindows ∉ rest) ∧
  (∀ currentUser' unread' commit',
     final (markAsRead currentUser' unread' commit' U s) = final r).
Proof.
  intros r. subst r. split_and!.
  - apply markAsRead_chatWindows.
  - rewrite markAsRead_chatWindows.
    apply Forall_fmap, Forall_forall. intros w _. simpl. by case_decide.
  - unfold_m.
    destruct currentUser, unread as [[|??]|], commit; simpl;
      eexists; (split; [reflexivity|]); solve_elem.
  - intros cu' unread' commit'. unfold_m.
    by destruct currentUser, unread as [[|??]|], commit,
      cu', unread' as [[|??]|], commit'.
Qed.

(** ** The message handler *)

Section handler.
Context (me : string) (cap : Registry) (chatId : string).
Context (latestDoc : MessageDoc) (older : list MessageDoc).

Let B := senderId (doc_data latestDoc).
Let docs := latestDoc :: older.

(** The handler returns at once on a message of the signed-in user. *)
Lemma onMessagesSnapshot_own s :
  B = me → onMessagesSnapshot me cap chatId docs s = (None, s, []).
Proof. intros H. unfold_m. simpl. by rewrite decide_True. Qed.

(** The handler returns at once when the captured cursor holds the id
    of the latest message. *)
Lemma onMessagesSnapshot_seen s :
  lastSeenMessageIds cap !! chatId = Some (doc_id latestDoc) →
  onMessagesSnapshot me cap chatId docs s = (None, s, []).
Proof.
  intros H. unfold_m. simpl. case_decide; [done|]. by rewrite decide_True.
Qed.

Hypothesis inbound : B ≠ me.
Hypothesis unseen : lastSeenMessageIds cap !! chatId ≠ Some (doc_id latestDoc).

Lemma onMessagesSnapshot_existing s :
  Exists (is_for B) (chatWindows cap) →
  onMessagesSnapshot me cap chatId docs s =
  (None,
   {| chatWindows :=
        (λ w, if decide (is_for B w)
              then ChatWindow.with_unreadCount (ChatWindow.unreadCount w + 1) w
              else w) <$> chatWindows s;
      closedChats := closedChats s;
      lastSeenMessageIds := <[chatId := doc_id latestDoc]> (lastSeenMessageIds s) |},
   [SetLastSeenMessageIds; SetChatWindows]).
Proof.
  intros Hex. unfold_m. simpl. rewrite !decide_False by done.
  destruct (list_find _ _) as [[i w]|] eqn:Hfind; [done|].
  apply list_find_None in Hfind. by apply Forall_Exists_neg in Hfind.
Qed.

Lemma onMessagesSnapshot_absent s :
  Forall (λ w, ¬ is_for B w) (chatWindows cap) →
  onMessagesSnapshot me cap chatId docs s =
  (Some {| s_senderId := B; s_messageData := doc_data latestDoc |},
   {| chatWindows := chatWindows s;
      closedChats := closedChats s;
      lastSeenMessageIds := <[chatId := doc_id latestDoc]> (lastSeenMessageIds s) |},
   [SetLastSeenMessageIds]).
Proof.
  intros Hno. unfold_m. simpl. rewrite !decide_False by done.
  rewrite <- list_find_None in Hno. fold B. by rewrite Hno.
Qed.
End handler.

(** C8. An inbound, not yet seen message whose sender [B] has a window:
    the handler adds exactly 1 to the unread count of the window of [B]
    and keeps its id, profile, minimized flag and position; every other
    window, and the closed set, stay as they are. *)
Theorem existing_window_unread_increment (me : string) (cap : Registry)
    (chatId : string) (latestDoc : MessageDoc) (older : list MessageDoc)
    (s : Registry) :
  let B := senderId (doc_data latestDoc) in
  B ≠ me →
  lastSeenMessageIds cap !! chatId ≠ Some (doc_id latestDoc) →
  Exists (is_for B) (chatWindows cap) →
  let r := onMessagesSnapshot me cap chatId (latestDoc :: older) s in
  result r = None ∧
  closedChats (final r) = closedChats s ∧
  length (chatWindows (final r)) = length (chatWindows s) ∧
  ∀ k w, chatWindows s !! k = Some w →
    ∃ w', chatWindows (final r) !! k = Some w' ∧
      (is_for B w →
         ChatWindow.unreadCount w' = ChatWindow.unreadCount w + 1 ∧
         ChatWindow.isMinimized w' = ChatWindow.isMinimized w ∧
         ChatWindow.position w' = ChatWindow.position w ∧
         ChatWindow.id w' = ChatWindow.id w ∧
         ChatWindow.user w' = ChatWindow.user w) ∧
      (¬ is_for B w → w' = w).
Proof.
  intros B Hin Hnew Hex r. subst r.
  rewrite onMessagesSnapshot_existing by done. fold B. unfold result, final. simpl.
  split_and!; [done|done|by rewrite length_fmap|].
  intros k w Hk. rewrite list_lookup_fmap, Hk. simpl.
  eexists. split; [reflexivity|]. by case_decide.
Qed.

(** C5. An inbound, not yet seen message whose sender [B] has no window:
    the handler suspends on the profile lookup, and when the lookup
    rejects or finds no document the window is appended all the same,
    minimized with one unread message, carrying the name and photo
    embedded in the message (the photo defaulting to the empty string),
    [isVerified = false], [role = 'user'] and [status = 'active']. *)
Theorem window_created_despite_lookup_fault (me : string) (cap : Registry)
    (chatId : string) (latestDoc : MessageDoc) (older : list MessageDoc)
    (s : Registry) (vp : Viewport) (fetch : Outcome (option ProfileData))
    (now1 now2 : Timestamp) :
  let B := senderId (doc_data latestDoc) in
  B ≠ me →
  lastSeenMessageIds cap !! chatId ≠ Some (doc_id latestDoc) →
  Forall (λ w, ¬ is_for B w) (chatWindows cap) →
  fetch = Rejected ∨ fetch = Resolved None →
  ∃ p, result (onMessagesSnapshot me cap chatId (latestDoc :: older) s) = Some p ∧
    ∀ s', ∃ w,
      chatWindows (final (onProfileFetched vp fetch now1 now2 p s')) =
        chatWindows s' ++ [w] ∧
      ChatWindow.id w = B ∧
      ChatWindow.uid w = B ∧
      ChatWindow.isMinimized w = true ∧
      ChatWindow.unreadCount w = 1 ∧
      ChatWindow.position w = newPosition vp (chatWindows s') ∧
      UserProfile.displayName (ChatWindow.user w) = senderName (doc_data latestDoc) ∧
      UserProfile.photoURL (ChatWindow.user w) =
        or_else (senderPhotoURL (doc_data latestDoc)) "" ∧
      UserProfile.isVerified (ChatWindow.user w) = false ∧
      UserProfile.role (ChatWindow.user w) = "user" ∧
      UserProfile.status (ChatWindow.user w) = "active".
Proof.
  intros B Hin Hnew Hno Hfetch.
  rewrite onMessagesSnapshot_absent by done.
  eexists. split; [reflexivity|]. intros s'.
  eexists. split; [reflexivity|].
  by destruct Hfetch as [-> | ->].
Qed.

(** ** closeChat and the closed set *)

Section closeChat.
Context (user : option string) (cleared : Outcome unit) (U : string)
  (s : Registry).

Lemma closeChat_chatWindows :
  chatWindows (final (closeChat user cleared U s)) =
  filter (λ w, ¬ is_for U w) (chatWindows s).
Proof. unfold_m. by destruct user, cleared. Qed.

Lemma closeChat_closedChats :
  closedChats (final (closeChat user cleared U s)) = closedChats s ∪ {[ U ]}.
Proof. unfold_m. by destruct user, cleared. Qed.

Lemma closeChat_lastSeenMessageIds :
  lastSeenMessageIds (final (closeChat user cleared U s)) = lastSeenMessageIds s.
Proof. unfold_m. by destruct user, cleared. Qed.

Lemma closeChat_reruns_effect :
  reruns_effect (trace (closeChat user cleared U s)) = true.
Proof.
  unfold reruns_effect. apply bool_decide_eq_true. left.
  unfold_m. destruct user, cleared; simpl; apply list_elem_of_here.
Qed.

Lemma closeChat_removes :
  Forall (λ w, ¬ is_for U w) (chatWindows (final (closeChat user cleared U s))).
Proof.
  rewrite closeChat_chatWindows. apply Forall_forall.
  intros w Hw. by apply list_elem_of_filter in Hw as [? _].
Qed.

Lemma closeChat_closes : U ∈ closedChats (final (closeChat user cleared U s)).
Proof. rewrite closeChat_closedChats. set_solver. Qed.
End closeChat.

(** The chats handler subscribes to no conversation whose counterpart is
    in the captured closed set. *)
Lemma listens_closed (me : string) (cap : Registry) (chat : ChatDoc) (U : string) :
  U ∈ closedChats cap → otherParticipantId me chat = Some U →
  listens me cap chat = false.
Proof.
  intros HU Hother. unfold listens. rewrite Hother.
  destruct (String.eqb U ""); [done|]. by rewrite decide_True.
Qed.

Lemma onChatsSnapshot_skips (me : string) (cap : Registry)
    (chats : list ChatDoc) (U : string) :
  U ∈ closedChats cap →
  Forall (λ chat, otherParticipantId me chat ≠ Some U) (onChatsSnapshot me cap chats).
Proof.
  intros HU. apply Forall_forall. intros chat Hin Hother.
  apply list_elem_of_In, filter_In in Hin as [_ Hl].
  by rewrite (listens_closed me cap chat U) in Hl.
Qed.

(** C10. Closing the chat with a user [U] that has no window keeps the
    window list as it is and still puts [U] in the closed set; under a
    closure that captured this set the chats handler subscribes to no
    conversation whose counterpart is [U]. *)
Theorem closeChat_without_window (user : option string)
    (cleared : Outcome unit) (U : string) (s : Registry) :
  Forall (λ w, ¬ is_for U w) (chatWindows s) →
  let s' := final (closeChat user cleared U s) in
  chatWindows s' = chatWindows s ∧
  U ∈ closedChats s' ∧
  ∀ me chats,
    Forall (λ chat, otherParticipantId me chat ≠ Some U) (onChatsSnapshot me s' chats).
Proof.
  intros Hno s'. subst s'. split_and!.
  - rewrite closeChat_chatWindows. by apply filter_out_keeps.
  - apply closeChat_closes.
  - intros me chats. apply onChatsSnapshot_skips, closeChat_closes.
Qed.

(** ** The reactive system *)

Section settle.
Context (sys : System) (r : Registry) (t : list Effect)
  (pending : list Suspended).

Lemma settle_registry : registry (settle sys r t pending) = r.
Proof. unfold settle. by destruct (reruns_effect t). Qed.

Lemma settle_suspended : suspended (settle sys r t pending) = pending.
Proof. unfold settle. by destruct (reruns_effect t). Qed.

Lemma settle_captured :
  captured (settle sys r t pending) =
  if reruns_effect t then r else captured sys.
Proof. unfold settle. by destruct (reruns_effect t). Qed.

Lemma settle_listeners :
  listeners (settle sys r t pending) =
  if reruns_effect t then [] else listeners sys.
Proof. unfold settle. by destruct (reruns_effect t). Qed.
End settle.

Lemma senderUser_uid (fetch : Outcome (option ProfileData))
    (now1 now2 : Timestamp) (B : string) (messageData : MessageData) :
  UserProfile.uid (senderUser fetch now1 now2 B messageData) = B.
Proof. by destruct fetch as [[?|]|]. Qed.

Lemma no_window_fmap_keyed (U : string) (f : ChatWindow.t → ChatWindow.t)
    (ws : list ChatWindow.t) :
  (∀ w, ChatWindow.uid (f w) = ChatWindow.uid w) →
  Forall (λ w, ¬ is_for U w) ws → Forall (λ w, ¬ is_for U w) (f <$> ws).
Proof.
  intros Hf. rewrite !no_window_uids. by rewrite uids_fmap_keyed.
Qed.

Section suppression.
Context (me U : string).

Lemma settle_suppressed sys r t pending :
  suppressed me U sys →
  U ∈ closedChats r →
  Forall (λ w, ¬ is_for U w) (chatWindows r) →
  Forall (λ p, s_senderId p ≠ U) pending →
  suppressed me U (settle sys r t pending).
Proof.
  intros (Hreg & Hcap & Hls & Hsus & Hws) Hr Hrw Hp. unfold suppressed.
  rewrite settle_registry, settle_suspended, settle_captured, settle_listeners.
  destruct (reruns_effect t); split_and!; done.
Qed.

Lemma perform_suppressed sys (m : M unit) :
  suppressed me U sys →
  U ∈ closedChats (final (m (registry sys))) →
  Forall (λ w, ¬ is_for U w) (chatWindows (final (m (registry sys)))) →
  suppressed me U (perform sys m).
Proof.
  intros Hsys Hc Hw. unfold perform. apply settle_suppressed; try done.
  by destruct Hsys as (_ & _ & _ & ? & _).
Qed.

(** Every input other than an explicit [openChat] of [U] keeps [U]
    suppressed. *)
Lemma step_suppressed sys i :
  suppressed me U sys → two_party me i → ¬ reopens U i →
  suppressed me U (step me sys i).
Proof.
  intros Hsys Htwo Hre.
  pose proof Hsys as (Hreg & Hcap & Hls & Hsus & Hws).
  destruct i as [vp u|V cleared|V|V pos|V unread commit|chats|chat docs|k vp fetch n1 n2];
    simpl.
  - apply perform_suppressed; [done|done|]. unfold_m. simpl.
    simpl in Hre. unfold openChat_update. case_decide.
    + apply no_window_fmap_keyed; [|done]. intros w. by case_decide.
    + apply Forall_app. split; [done|]. by repeat constructor.
  - apply perform_suppressed; [done| |].
    + rewrite closeChat_closedChats. set_solver.
    + rewrite closeChat_chatWindows. apply Forall_forall. intros w Hw.
      apply list_elem_of_filter in Hw as [_ Hw].
      rewrite Forall_forall in Hws. by apply Hws.
  - apply perform_suppressed; [done|done|]. unfold_m. simpl.
    apply no_window_fmap_keyed; [|done]. intros w. by case_decide.
  - apply perform_suppressed; [done|done|]. unfold_m. simpl.
    apply no_window_fmap_keyed; [|done]. intros w. by case_decide.
  - assert (Hfin : final (markAsRead (Some me) unread commit V (registry sys)) =
                   final (setChatWindows (fmap (λ w,
                     if decide (is_for V w)
                     then ChatWindow.with_unreadCount 0 w else w)) (registry sys))).
    { unfold_m. by destruct unread as [[|??]|], commit. }
    apply perform_suppressed; [done|by rewrite Hfin|]. rewrite Hfin.
    unfold_m. simpl.
    apply no_window_fmap_keyed; [|done]. intros w. by case_decide.
  - unfold suppressed. simpl. split_and!; try done.
    apply Forall_app. split; [done|]. by apply onChatsSnapshot_skips.
  - case_decide as Hlisten; [|done].
    destruct docs as [|d older].
    { apply settle_suppressed; try done. simpl. by rewrite app_nil_r. }
    destruct (decide (senderId (doc_data d) = me)) as [Hown|Hin].
    { rewrite onMessagesSnapshot_own by done.
      apply settle_suppressed; try done. simpl. by rewrite app_nil_r. }
    destruct (decide (lastSeenMessageIds (captured sys) !! chat_id chat
                      = Some (doc_id d))) as [Hseen|Hnew].
    { rewrite onMessagesSnapshot_seen by done.
      apply settle_suppressed; try done. simpl. by rewrite app_nil_r. }
    assert (HB : senderId (doc_data d) ≠ U).
    { simpl in Htwo. destruct Htwo as [?|Hother]; [done|].
      rewrite Forall_forall in Hls. intros <-. by apply (Hls chat). }
    destruct (decide (Exists (is_for (senderId (doc_data d)))
                        (chatWindows (captured sys)))) as [Hex|Hno].
    + rewrite onMessagesSnapshot_existing by done.
      apply settle_suppressed; try done; simpl.
      * apply no_window_fmap_keyed; [|done]. intros w. by case_decide.
      * by rewrite app_nil_r.
    + apply Forall_Exists_neg in Hno.
      rewrite onMessagesSnapshot_absent by done.
      apply settle_suppressed; try done; simpl.
      apply Forall_app. split; [done|]. by repeat constructor.
  - destruct (suspended sys !! k) as [p|] eqn:Hk; [|done].
    assert (Hp : s_senderId p ≠ U).
    { rewrite Forall_forall in Hsus. apply Hsus.
      by eapply list_elem_of_lookup_2. }
    apply settle_suppressed; try done.
    + unfold_m. simpl. apply Forall_app. split; [done|].
      repeat constructor. unfold is_for, ChatWindow.uid. simpl.
      by rewrite senderUser_uid.
    + by apply Forall_delete.
Qed.

Lemma run_suppressed inputs : ∀ sys,
  suppressed me U sys →
  Forall (two_party me) inputs →
  Forall (λ i, ¬ reopens U i) inputs →
  suppressed me U (run me sys inputs).
Proof.
  induction inputs as [|i inputs IH]; intros sys Hsys Htwo Hre; [done|].
  apply Forall_cons in Htwo as [Hi Htwo].
  apply Forall_cons in Hre as [Hri Hre].
  simpl. apply IH; [|done..]. by apply step_suppressed.
Qed.
End suppression.

(** C3. [closeChat(U)] removes the window of [U] and puts [U] in the
    closed set. From then on, whatever the inputs, as long as the user
    does not open the chat with [U] explicitly, [U] stays in the closed
    set, no listener is subscribed to a conversation whose counterpart is
    [U], and no window for [U] appears: an inbound message from [U] does
    not auto-create one. (Handlers already suspended on a profile lookup
    when the chat is closed belong to earlier messages.) *)
Theorem closeChat_suppresses_auto_open (me U : string)
    (cleared : Outcome unit) (sys : System) (inputs : list Input) :
  Forall (λ p, s_senderId p ≠ U) (suspended sys) →
  Forall (two_party me) inputs →
  Forall (λ i, ¬ reopens U i) inputs →
  let closed := step me sys (CloseChat U cleared) in
  let later := run me closed inputs in
  (Forall (λ w, ¬ is_for U w) (chatWindows (registry closed)) ∧
   U ∈ closedChats (registry closed)) ∧
  Forall (λ w, ¬ is_for U w) (chatWindows (registry later)) ∧
  U ∈ closedChats (registry later) ∧
  Forall (λ chat, otherParticipantId me chat ≠ Some U) (listeners later).
Proof.
  intros Hsus Htwo Hre closed later.
  assert (Hclosed : suppressed me U closed).
  { subst closed.
    change (step me sys (CloseChat U cleared))
      with (perform sys (closeChat (Some me) cleared U)).
    unfold perform, settle. rewrite closeChat_reruns_effect.
    unfold suppressed. cbn [registry captured listeners suspended].
    split_and!; try done;
      try apply closeChat_closes; try apply closeChat_removes. }
  pose proof (run_suppressed me U inputs closed Hclosed Htwo Hre)
    as (Hreg & _ & Hls & _ & Hws).
  by destruct Hclosed as (? & _ & _ & _ & ?).
Qed.

(** ** The invariant of the window list *)

Section invariant.
Implicit Types (s : Registry).

Lemma unique_fmap_keyed (f : ChatWindow.t → ChatWindow.t) ws :
  (∀ w, ChatWindow.uid (f w) = ChatWindow.uid w) →
  unique_windows ws → unique_windows (f <$> ws).
Proof. intros Hf. unfold unique_windows. by rewrite uids_fmap_keyed. Qed.

Lemma openChat_unique vp u s :
  unique_windows (chatWindows s) →
  unique_windows (chatWindows (final (openChat vp u s))).
Proof. apply openChat_update_unique. Qed.

Lemma closeChat_unique user cleared U s :
  unique_windows (chatWindows s) →
  unique_windows (chatWindows (final (closeChat user cleared U s))).
Proof.
  rewrite closeChat_chatWindows. unfold unique_windows. intros Hnd.
  eapply sublist_NoDup; [exact Hnd|].
  apply fmap_sublist, sublist_filter.
Qed.

Lemma minimizeChat_unique U s :
  unique_windows (chatWindows s) →
  unique_windows (chatWindows (final (minimizeChat U s))).
Proof.
  unfold_m. simpl. apply unique_fmap_keyed. intros w. by case_decide.
Qed.

Lemma updatePosition_unique U position s :
  unique_windows (chatWindows s) →
  unique_windows (chatWindows (final (updatePosition U position s))).
Proof.
  unfold_m. simpl. apply unique_fmap_keyed. intros w. by case_decide.
Qed.

Lemma markAsRead_unique currentUser unread commit U s :
  unique_windows (chatWindows s) →
  unique_windows (chatWindows (final (markAsRead currentUser unread commit U s))).
Proof.
  rewrite markAsRead_chatWindows. apply unique_fmap_keyed. intros w. by case_decide.
Qed.

(** The part of the message handler that runs before the lookup keeps
    the invariant, whatever it captured. *)
Lemma onMessagesSnapshot_unique me cap chatId docs s :
  unique_windows (chatWindows s) →
  unique_windows (chatWindows (final (onMessagesSnapshot me cap chatId docs s))).
Proof.
  intros Hnd. destruct docs as [|d older]; [done|].
  destruct (decide (senderId (doc_data d) = me)) as [Hown|Hin].
  { by rewrite onMessagesSnapshot_own. }
  destruct (decide (lastSeenMessageIds cap !! chatId = Some (doc_id d)))
    as [Hseen|Hnew].
  { by rewrite onMessagesSnapshot_seen. }
  destruct (decide (Exists (is_for (senderId (doc_data d))) (chatWindows cap)))
    as [Hex|Hno].
  - rewrite onMessagesSnapshot_existing by done. unfold final. simpl.
    apply unique_fmap_keyed; [|done]. intros w. by case_decide.
  - apply Forall_Exists_neg in Hno.
    by rewrite onMessagesSnapshot_absent.
Qed.

(** The part that runs after the lookup keeps it only if the sender
    still has no window at that moment; the handler does not look. *)
Lemma onProfileFetched_unique vp fetch now1 now2 p s :
  Forall (λ w, ¬ is_for (s_senderId p) w) (chatWindows s) →
  unique_windows (chatWindows s) →
  unique_windows (chatWindows (final (onProfileFetched vp fetch now1 now2 p s))).
Proof.
  intros Hno Hnd. unfold_m. simpl. unfold unique_windows.
  rewrite fmap_app. apply NoDup_app. split_and!; [done| |apply NoDup_singleton].
  intros x Hx. cbn. rewrite list_elem_of_singleton.
  unfold ChatWindow.uid. simpl. rewrite senderUser_uid. intros ->.
  by apply no_window_uids in Hno.
Qed.
End invariant.

(** ** Re-delivery of a snapshot *)

(** A listener whose closure captured the cursor of the latest message
    leaves the system as it is. *)
Lemma redelivery_ignored_when_captured (me : string) (sys : System)
    (chat : ChatDoc) (latestDoc : MessageDoc) (older : list MessageDoc) :
  lastSeenMessageIds (captured sys) !! chat_id chat = Some (doc_id latestDoc) →
  step me sys (MessagesSnapshot chat (latestDoc :: older)) = sys.
Proof.
  intros Hseen. unfold step. case_decide; [|done].
  rewrite onMessagesSnapshot_seen by done.
  unfold settle, final, trace, result. simpl. rewrite app_nil_r. by destruct sys.
Qed.

(** When the sender has a window the handler writes the window list, the
    effect re-runs, and the new closure holds the cursor. *)
Lemma cursor_captured_after_increment (me : string) (sys : System)
    (chat : ChatDoc) (latestDoc : MessageDoc) (older : list MessageDoc) :
  chat ∈ listeners sys →
  senderId (doc_data latestDoc) ≠ me →
  lastSeenMessageIds (captured sys) !! chat_id chat ≠ Some (doc_id latestDoc) →
  Exists (is_for (senderId (doc_data latestDoc))) (chatWindows (captured sys)) →
  lastSeenMessageIds
    (captured (step me sys (MessagesSnapshot chat (latestDoc :: older))))
    !! chat_id chat = Some (doc_id latestDoc).
Proof.
  intros Hl Hin Hnew Hex. unfold step. rewrite decide_True by done.
  rewrite onMessagesSnapshot_existing by done.
  unfold settle, final, trace. simpl. apply lookup_insert_eq.
Qed.

(** When the sender has no window the handler writes the cursor only:
    the effect does not re-run, and the closure of the listener still
    lacks the cursor while the lookup is pending. *)
Lemma cursor_not_captured_while_fetching (me : string) (sys : System)
    (chat : ChatDoc) (latestDoc : MessageDoc) (older : list MessageDoc) :
  chat ∈ listeners sys →
  senderId (doc_data latestDoc) ≠ me →
  lastSeenMessageIds (captured sys) !! chat_id chat ≠ Some (doc_id latestDoc) →
  Forall (λ w, ¬ is_for (senderId (doc_data latestDoc)) w)
         (chatWindows (captured sys)) →
  let sys' := step me sys (MessagesSnapshot chat (latestDoc :: older)) in
  captured sys' = captured sys ∧
  listeners sys' = listeners sys ∧
  lastSeenMessageIds (registry sys') !! chat_id chat = Some (doc_id latestDoc).
Proof.
  intros Hl Hin Hnew Hno. unfold step. rewrite decide_True by done.
  rewrite onMessagesSnapshot_absent by done.
  unfold settle, final, trace. simpl. split_and!; [done..|].
  apply lookup_insert_eq.
Qed.

(** ** The handler across its [await] *)

(** While a lookup is pending, a second delivery of the same snapshot to
    the same listener suspends a second invocation for the same message. *)
Lemma redelivery_suspends_again (me : string) (sys : System)
    (chat : ChatDoc) (latestDoc : MessageDoc) (older : list MessageDoc) :
  chat ∈ listeners sys →
  senderId (doc_data latestDoc) ≠ me →
  lastSeenMessageIds (captured sys) !! chat_id chat ≠ Some (doc_id latestDoc) →
  Forall (λ w, ¬ is_for (senderId (doc_data latestDoc)) w)
         (chatWindows (captured sys)) →
  let delivery := MessagesSnapshot chat (latestDoc :: older) in
  let p := {| s_senderId := senderId (doc_data latestDoc);
              s_messageData := doc_data latestDoc |} in
  suspended (step me (step me sys delivery) delivery) = suspended sys ++ [p; p].
Proof.
  intros Hl Hin Hnew Hno delivery p.
  destruct (cursor_not_captured_while_fetching me sys chat latestDoc older
              Hl Hin Hnew Hno) as (Hcap & Hls & _).
  fold delivery in Hcap, Hls.
  assert (Hone : ∀ sys0, chat ∈ listeners sys0 →
             captured sys0 = captured sys →
             suspended (step me sys0 delivery) = suspended sys0 ++ [p]).
  { intros sys0 Hl0 Hc0. subst delivery. unfold step.
    rewrite decide_True by done. rewrite Hc0.
    rewrite onMessagesSnapshot_absent by done.
    by rewrite settle_suspended. }
  rewrite Hone; [|by rewrite Hls|done].
  rewrite Hone by done. by rewrite <- app_assoc.
Qed.

(** Resuming for a sender that has a window by then breaks the
    invariant. *)
Lemma onProfileFetched_duplicates (vp : Viewport)
    (fetch : Outcome (option ProfileData)) (now1 now2 : Timestamp)
    (p : Suspended) (s : Registry) :
  Exists (is_for (s_senderId p)) (chatWindows s) →
  ¬ unique_windows (chatWindows (final (onProfileFetched vp fetch now1 now2 p s))).
Proof.
  intros Hex. unfold_m. simpl. unfold unique_windows.
  rewrite fmap_app. intros Hnd. apply NoDup_app in Hnd as (_ & Hdisj & _).
  apply has_window_uids in Hex. apply (Hdisj _ Hex).
  cbn. unfold ChatWindow.uid. simpl. rewrite senderUser_uid.
  apply list_elem_of_here.
Qed.

(** When the lookup has settled before the snapshot comes again, the
    effect has re-run and the second delivery is ignored. *)
Lemma redelivery_after_lookup_ignored :
  let sys := run "alice" start Session.redelivery_after_lookup in
  (λ w, (ChatWindow.uid w, ChatWindow.unreadCount w))
    <$> chatWindows (registry sys) = [("bob", 1)].
Proof. reflexivity. Qed.

(** C1. Two deliveries of the same snapshot to one listener, the second
    while the profile lookup started by the first is pending: the
    closure of the listener still lacks the cursor, so the second
    delivery is handled like the first, and the one message of Bob is
    counted twice, in two windows of one unread message each. *)
Theorem redelivery_while_fetching_not_ignored :
  let sys := run "alice" start Session.redelivery in
  lastSeenMessageIds (registry sys) !! "alice_bob" = Some "m1" ∧
  (λ w, (ChatWindow.uid w, ChatWindow.unreadCount w))
    <$> chatWindows (registry sys) = [("bob", 1); ("bob", 1)].
Proof. split; reflexivity. Qed.

(** C2. Alice opens the chat with Bob while the handler of Bob's message
    waits for his profile: the handler, which found no window before the
    lookup, appends a second window for Bob, and the window list no
    longer has at most one window per user. *)
Theorem open_while_fetching_duplicates_window :
  let sys := run "alice" start Session.open_while_fetching in
  unique_windows (chatWindows (registry start)) ∧
  ChatWindow.uid <$> chatWindows (registry sys) = ["bob"; "bob"] ∧
  ¬ unique_windows (chatWindows (registry sys)).
Proof.
  intros sys.
  assert (Huids : ChatWindow.uid <$> chatWindows (registry sys) = ["bob"; "bob"])
    by reflexivity.
  split_and!; [constructor|done|].
  unfold unique_windows. rewrite Huids. intros Hnd.
  apply NoDup_cons in Hnd as [Hbob _]. apply Hbob, list_elem_of_here.
Qed.

(** C4. In the state reached when Alice opened the chat with Bob while
    the handler of his message waited for his profile, Bob has two
    windows. [openChat(bob)] followed by [openChat(bob)] re-opens both:
    two windows for Bob are left, not exactly one. *)
Theorem openChat_twice_keeps_duplicate :
  let before := run "alice" start Session.open_while_fetching in
  let after := run "alice" before Session.open_twice in
  length (windows_for "bob" (chatWindows (registry before))) = 2%nat ∧
  (λ w, (ChatWindow.uid w, ChatWindow.isMinimized w, ChatWindow.unreadCount w))
    <$> chatWindows (registry after)
    = [("bob", false, 0%nat); ("bob", false, 0%nat)] ∧
  length (windows_for "bob" (chatWindows (registry after))) = 2%nat.
Proof. split_and!; reflexivity. Qed.

(** ** Instances *)

Lemma closeChat_suppresses_auto_open_witness :
  let sys := step "alice" start (OpenChat Session.viewport Session.bob) in
  Forall (λ p, s_senderId p ≠ "bob") (suspended sys) ∧
  Forall (two_party "alice") Session.after_close ∧
  Forall (λ i, ¬ reopens "bob" i) Session.after_close ∧
  let closed := step "alice" sys (CloseChat "bob" Rejected) in
  let later := run "alice" closed Session.after_close in
  (Forall (λ w, ¬ is_for "bob" w) (chatWindows (registry closed)) ∧
   "bob" ∈ closedChats (registry closed)) ∧
  Forall (λ w, ¬ is_for "bob" w) (chatWindows (registry later)) ∧
  "bob" ∈ closedChats (registry later) ∧
  Forall (λ chat, otherParticipantId "alice" chat ≠ Some "bob") (listeners later).
Proof.
  intros sys.
  assert (H1 : Forall (λ p, s_senderId p ≠ "bob") (suspended sys))
    by apply Forall_nil_2.
  assert (H2 : Forall (two_party "alice") Session.after_close).
  { apply Forall_cons. split; [exact I|].
    apply Forall_cons. split; [right; reflexivity|].
    apply Forall_cons. split; [exact I|]. apply Forall_nil_2. }
  assert (H3 : Forall (λ i, ¬ reopens "bob" i) Session.after_close).
  { repeat constructor; simpl; intros []. }
  split_and!; [exact H1|exact H2|exact H3|].
  exact (closeChat_suppresses_auto_open "alice" "bob" Rejected sys
           Session.after_close H1 H2 H3).
Defined.

Lemma openChat_twice_idempotent_witness :
  let s := final (openChat Session.viewport Session.carol initial) in
  (length (windows_for "bob" (chatWindows s)) ≤ 1)%nat ∧
  let once := final (openChat Session.viewport Session.bob s) in
  let twice := final (openChat Session.viewport Session.bob once) in
  twice = once ∧
  (∃ w, windows_for "bob" (chatWindows twice) = [w] ∧
        ChatWindow.isMinimized w = false ∧
        ChatWindow.unreadCount w = 0) ∧
  (unique_windows (chatWindows s) → unique_windows (chatWindows twice)).
Proof.
  intros s.
  assert (H : (length (windows_for "bob" (chatWindows s)) ≤ 1)%nat).
  { vm_compute. lia. }
  split; [exact H|].
  exact (openChat_twice_idempotent Session.viewport Session.bob s H).
Defined.

Lemma window_created_despite_lookup_fault_witness :
  "bob" ≠ "alice" ∧
  lastSeenMessageIds initial !! "alice_bob" ≠ Some "m1" ∧
  Forall (λ w, ¬ is_for "bob" w) (chatWindows initial) ∧
  (@Rejected (option ProfileData) = Rejected ∨
   @Rejected (option ProfileData) = Resolved None) ∧
  ∃ p, result (onMessagesSnapshot "alice" initial "alice_bob" [Session.m1] initial)
       = Some p ∧
    ∀ s', ∃ w,
      chatWindows (final (onProfileFetched Session.viewport Rejected 1 2 p s')) =
        chatWindows s' ++ [w] ∧
      ChatWindow.id w = "bob" ∧
      ChatWindow.uid w = "bob" ∧
      ChatWindow.isMinimized w = true ∧
      ChatWindow.unreadCount w = 1 ∧
      ChatWindow.position w = newPosition Session.viewport (chatWindows s') ∧
      UserProfile.displayName (ChatWindow.user w) = Some "Bob" ∧
      UserProfile.photoURL (ChatWindow.user w) = "" ∧
      UserProfile.isVerified (ChatWindow.user w) = false ∧
      UserProfile.role (ChatWindow.user w) = "user" ∧
      UserProfile.status (ChatWindow.user w) = "active".
Proof.
  assert (H1 : "bob" ≠ "alice") by discriminate.
  assert (H2 : lastSeenMessageIds initial !! "alice_bob" ≠ Some "m1")
    by discriminate.
  assert (H3 : Forall (λ w, ¬ is_for "bob" w) (chatWindows initial))
    by apply Forall_nil_2.
  assert (H4 : @Rejected (option ProfileData) = Rejected ∨
               @Rejected (option ProfileData) = Resolved None)
    by (left; reflexivity).
  split_and!; [exact H1|exact H2|exact H3|exact H4|].
  exact (window_created_despite_lookup_fault "alice" initial "alice_bob"
           Session.m1 [] initial Session.viewport Rejected 1 2 H1 H2 H3 H4).
Defined.

Lemma openChat_cascade_witness :
  let users := [Session.bob; Session.carol] in
  NoDup (UserProfile.uid <$> users) ∧
  let ws := chatWindows (openChats Session.viewport users initial) in
  length ws = 2 ∧
  (∀ k u, users !! k = Some u →
          ws !! k = Some (opened_window Session.viewport u k)) ∧
  (∀ k w w', ws !! k = Some w → ws !! S k = Some w' →
     let p := ChatWindow.position w in
     let p' := ChatWindow.position w' in
     Position.x p' = Z.max 0 (Position.x p - 20) ∧
     Position.y p' = Z.max 0 (Position.y p - 20) ∧
     (0 < Position.x p → Position.x p' < Position.x p)%Z ∧
     (0 < Position.y p → Position.y p' < Position.y p)%Z ∧
     (0 < Position.x p' → 1280 - Position.x p' = 1280 - Position.x p + 20)%Z ∧
     (0 < Position.y p' → 800 - Position.y p' = 800 - Position.y p + 20)%Z).
Proof.
  intros users.
  assert (H : NoDup (UserProfile.uid <$> users)).
  { apply NoDup_cons. split; [|apply NoDup_singleton].
    rewrite list_elem_of_singleton. discriminate. }
  split; [exact H|].
  exact (openChat_cascade Session.viewport users H).
Defined.

Lemma existing_window_unread_increment_witness :
  let s := final (openChat Session.viewport Session.bob initial) in
  "bob" ≠ "alice" ∧
  lastSeenMessageIds s !! "alice_bob" ≠ Some "m1" ∧
  Exists (is_for "bob") (chatWindows s) ∧
  let r := onMessagesSnapshot "alice" s "alice_bob" [Session.m1] s in
  result r = None ∧
  closedChats (final r) = closedChats s ∧
  length (chatWindows (final r)) = length (chatWindows s) ∧
  ∀ k w, chatWindows s !! k = Some w →
    ∃ w', chatWindows (final r) !! k = Some w' ∧
      (is_for "bob" w →
         ChatWindow.unreadCount w' = ChatWindow.unreadCount w + 1 ∧
         ChatWindow.isMinimized w' = ChatWindow.isMinimized w ∧
         ChatWindow.position w' = ChatWindow.position w ∧
         ChatWindow.id w' = ChatWindow.id w ∧
         ChatWindow.user w' = ChatWindow.user w) ∧
      (¬ is_for "bob" w → w' = w).
Proof.
  intros s.
  assert (H1 : "bob" ≠ "alice") by discriminate.
  assert (H2 : lastSeenMessageIds s !! "alice_bob" ≠ Some "m1") by discriminate.
  assert (H3 : Exists (is_for "bob") (chatWindows s)).
  { apply Exists_cons_hd. reflexivity. }
  split_and!; [exact H1|exact H2|exact H3|].
  exact (existing_window_unread_increment "alice" s "alice_bob" Session.m1 [] s
           H1 H2 H3).
Defined.

Lemma closeChat_without_window_witness :
  let s := final (openChat Session.viewport Session.bob initial) in
  Forall (λ w, ¬ is_for "carol" w) (chatWindows s) ∧
  let s' := final (closeChat (Some "alice") (Resolved tt) "carol" s) in
  chatWindows s' = chatWindows s ∧
  "carol" ∈ closedChats s' ∧
  ∀ me chats,
    Forall (λ chat, otherParticipantId me chat ≠ Some "carol")
           (onChatsSnapshot me s' chats).
Proof.
  intros s.
  assert (H : Forall (λ w, ¬ is_for "carol" w) (chatWindows s)).
  { apply Forall_cons. split; [discriminate|apply Forall_nil_2]. }
  split; [exact H|].
  exact (closeChat_without_window (Some "alice") (Resolved tt) "carol" s H).
Defined.

(** * Further properties of the provider *)

(** ** Operations on one window *)

Lemma registry_eta (s : Registry) :
  {| chatWindows := chatWindows s;
     closedChats := closedChats s;
     lastSeenMessageIds := lastSeenMessageIds s |} = s.
Proof. by destruct s. Qed.

(** A [prev.map] that leaves every window of the list as it is returns
    the list. *)
Lemma fmap_fixed (f : ChatWindow.t → ChatWindow.t) (ws : list ChatWindow.t) :
  Forall (λ w, f w = w) ws → f <$> ws = ws.
Proof.
  intros H. rewrite <- (list_fmap_id ws) at 2. by apply Forall_fmap_ext.
Qed.

(** X1. [minimizeChat(U)] twice gives back the registry it started from,
    whether or not [U] has a window. *)
Theorem minimizeChat_twice (U : string) (s : Registry) :
  final (minimizeChat U (final (minimizeChat U s))) = s.
Proof.
  unfold_m. simpl. rewrite <- list_fmap_compose.
  rewrite fmap_fixed; [apply registry_eta|].
  apply Forall_forall. intros w _. simpl.
  destruct (decide (is_for U w)) as [Hw|Hw].
  - rewrite decide_True by done. destruct w as [? ? b ? ?]. simpl.
    by rewrite negb_involutive.
  - by rewrite decide_False.
Qed.

(** X2. For a user without a window, [minimizeChat], [updatePosition]
    and [markAsRead] leave the registry as it is. *)
Theorem absent_window_noop (U : string) (position : Position.t)
    (currentUser : option string) (unread : Outcome (list string))
    (commit : Outcome unit) (s : Registry) :
  Forall (λ w, ¬ is_for U w) (chatWindows s) →
  final (minimizeChat U s) = s ∧
  final (updatePosition U position s) = s ∧
  final (markAsRead currentUser unread commit U s) = s.
Proof.
  intros Hno.
  assert (Hfix : ∀ g : ChatWindow.t → ChatWindow.t,
            (λ w, if decide (is_for U w) then g w else w) <$> chatWindows s
            = chatWindows s).
  { intros g. apply fmap_fixed. eapply Forall_impl; [exact Hno|].
    intros w Hw. simpl. by rewrite decide_False. }
  split_and!.
  - unfold_m. simpl. rewrite Hfix. apply registry_eta.
  - unfold_m. simpl. rewrite Hfix. apply registry_eta.
  - rewrite <- (registry_eta s) at 2. rewrite <- (Hfix (ChatWindow.with_unreadCount 0)).
    unfold_m. by destruct currentUser, unread as [[|??]|], commit.
Qed.

(** X3. [updatePosition(U, p)] puts every window of [U] at [p] and keeps
    its other fields, keeps every other window, and a later call
    overrides an earlier one. *)
Theorem updatePosition_overwrites (U : string) (p1 p2 : Position.t)
    (s : Registry) :
  let s2 := final (updatePosition U p2 s) in
  final (updatePosition U p2 (final (updatePosition U p1 s))) = s2 ∧
  closedChats s2 = closedChats s ∧
  lastSeenMessageIds s2 = lastSeenMessageIds s ∧
  length (chatWindows s2) = length (chatWindows s) ∧
  ∀ k w, chatWindows s !! k = Some w →
    ∃ w', chatWindows s2 !! k = Some w' ∧
      (is_for U w →
         ChatWindow.position w' = p2 ∧
         ChatWindow.id w' = ChatWindow.id w ∧
         ChatWindow.user w' = ChatWindow.user w ∧
         ChatWindow.isMinimized w' = ChatWindow.isMinimized w ∧
         ChatWindow.unreadCount w' = ChatWindow.unreadCount w) ∧
      (¬ is_for U w → w' = w).
Proof.
  intros s2. subst s2. unfold_m. simpl. split_and!; try done.
  - f_equal. rewrite <- list_fmap_compose. apply list_fmap_ext.
    intros _ w _. simpl. destruct (decide (is_for U w)) as [Hw|Hw].
    + by rewrite decide_True.
    + by rewrite decide_False.
  - by rewrite length_fmap.
  - intros k w Hk. rewrite list_lookup_fmap, Hk. simpl.
    eexists. split; [reflexivity|]. by case_decide.
Qed.

(** X4. [openChat] for a user that has a window keeps the id, the
    profile and the position of that window (the profile passed in is not
    used), keeps every other window, the closed set and the cursor. *)
Theorem openChat_existing_keeps_profile (vp : Viewport) (u : UserProfile.t)
    (s : Registry) :
  Exists (is_for (UserProfile.uid u)) (chatWindows s) →
  let s' := final (openChat vp u s) in
  closedChats s' = closedChats s ∧
  lastSeenMessageIds s' = lastSeenMessageIds s ∧
  length (chatWindows s') = length (chatWindows s) ∧
  ∀ k w, chatWindows s !! k = Some w →
    ∃ w', chatWindows s' !! k = Some w' ∧
      (is_for (UserProfile.uid u) w →
         ChatWindow.id w' = ChatWindow.id w ∧
         ChatWindow.user w' = ChatWindow.user w ∧
         ChatWindow.position w' = ChatWindow.position w ∧
         ChatWindow.isMinimized w' = false ∧
         ChatWindow.unreadCount w' = 0) ∧
      (¬ is_for (UserProfile.uid u) w → w' = w).
Proof.
  intros Hex s'. subst s'. unfold_m. simpl.
  rewrite openChat_update_existing by done.
  split_and!; [done|done|by rewrite length_fmap|].
  intros k w Hk. rewrite list_lookup_fmap, Hk. simpl.
  eexists. split; [reflexivity|]. unfold reopened. by case_decide.
Qed.

(** X5. [closeChat(U)] a second time changes nothing, and the windows of
    every other user stay, in their order; the cursor is not touched. *)
Theorem closeChat_idempotent_frame (user user' : option string)
    (cleared cleared' : Outcome unit) (U : string) (s : Registry) :
  let s' := final (closeChat user cleared U s) in
  final (closeChat user' cleared' U s') = s' ∧
  lastSeenMessageIds s' = lastSeenMessageIds s ∧
  ∀ V, V ≠ U → windows_for V (chatWindows s') = windows_for V (chatWindows s).
Proof.
  intros s'. subst s'. split_and!.
  - assert (Hs : ∀ usr c s0, final (closeChat usr c U s0) =
        {| chatWindows := filter (λ w, ¬ is_for U w) (chatWindows s0);
           closedChats := closedChats s0 ∪ {[ U ]};
           lastSeenMessageIds := lastSeenMessageIds s0 |}).
    { intros usr c s0. unfold_m. by destruct usr, c. }
    rewrite !Hs. simpl. f_equal.
    + apply filter_out_keeps, Forall_forall. intros w Hw.
      by apply list_elem_of_filter in Hw as [? _].
    + by rewrite <- (assoc_L (∪)), (idemp_L (∪)).
  - apply closeChat_lastSeenMessageIds.
  - intros V HV. rewrite closeChat_chatWindows. unfold windows_for.
    induction (chatWindows s) as [|w ws IH]; [done|].
    destruct (decide (is_for U w)) as [Hw|Hw].
    + rewrite (filter_cons_False (λ w, ¬ is_for U w)) by auto.
      rewrite (filter_cons_False (is_for V)); [done|].
      unfold is_for in *. congruence.
    + rewrite (filter_cons_True (λ w, ¬ is_for U w)) by done.
      rewrite !filter_cons. by rewrite IH.
Qed.

(** ** Remote calls *)

(** X6. [markAsRead] makes no remote call when nobody is signed in; it
    commits a batch exactly when the query resolved with at least one
    unread message, and writes to the console exactly when the query or
    that commit rejected. *)
Theorem markAsRead_remote_calls (currentUser : option string)
    (unread : Outcome (list string)) (commit : Outcome unit) (U : string)
    (s : Registry) :
  let t := trace (markAsRead currentUser unread commit U s) in
  (currentUser = None → t = [SetChatWindows]) ∧
  (∀ refs, BatchCommit refs ∈ t ↔
     is_Some currentUser ∧ unread = Resolved refs ∧ refs ≠ []) ∧
  (ConsoleError ∈ t ↔
     is_Some currentUser ∧
     (unread = Rejected ∨
      ∃ refs, unread = Resolved refs ∧ refs ≠ [] ∧ commit = Rejected)).
Proof.
  intros t. subst t. unfold_m.
  destruct currentUser as [me|], unread as [[|ref refs]|], commit as [[]|];
    simpl; (split_and!; [done| |]);
    try (intros refs'); rewrite ?elem_of_cons, ?elem_of_nil;
    (split; [intros H|intros (Hu & H)]);
    repeat match goal with
    | H : _ ∨ _ |- _ => destruct H
    | H : ∃ _, _ |- _ => destruct H
    | H : _ ∧ _ |- _ => destruct H
    | H : is_Some None |- _ => by destruct H
    | H : False |- _ => destruct H
    end;
    try discriminate; try congruence;
    try (simplify_eq; split_and!; eauto; done);
    try (simplify_eq; eauto 10).
Qed.

(** X7. The registry [closeChat] leaves does not depend on who is signed
    in nor on the outcome of the typing-status write; that write is
    issued exactly when a user is signed in, and [console.error] is
    called exactly when a user is signed in and that write rejects. *)
Theorem closeChat_local_whatever_remote (user : option string)
    (cleared : Outcome unit) (U : string) (s : Registry) :
  let r := closeChat user cleared U s in
  final r = final (closeChat None (Resolved tt) U s) ∧
  (∀ cid, SetDocTypingNull cid ∈ trace r ↔
     ∃ me, user = Some me ∧ cid = chatId_of me U) ∧
  (ConsoleError ∈ trace r ↔ is_Some user ∧ cleared = Rejected).
Proof.
  intros r. subst r. unfold_m.
  destruct user as [me|], cleared as [[]|]; simpl;
    (split_and!; [done| |]);
    try (intros cid); rewrite ?elem_of_cons, ?elem_of_nil;
    (split; [intros H|intros H]);
    repeat match goal with
    | H : _ ∨ _ |- _ => destruct H
    | H : ∃ _, _ |- _ => destruct H
    | H : _ ∧ _ |- _ => destruct H
    | H : is_Some None |- _ => by destruct H
    | H : False |- _ => destruct H
    end;
    try discriminate; try congruence;
    try (simplify_eq; eauto 10).
Qed.

(** ** The message handler, case by case *)

(** X8. The message handler does nothing at all (no setter, no lookup)
    exactly when the snapshot is empty, its latest message is the
    signed-in user's, or the captured cursor holds its id. Otherwise its
    first action is to write the id of the latest message into the
    cursor of the current state. *)
Theorem onMessagesSnapshot_ignores (me : string) (cap : Registry)
    (chatId : string) (docs : list MessageDoc) (s : Registry) :
  let r := onMessagesSnapshot me cap chatId docs s in
  let ignored :=
    match docs with
    | [] => True
    | latestDoc :: _ =>
        senderId (doc_data latestDoc) = me ∨
        lastSeenMessageIds cap !! chatId = Some (doc_id latestDoc)
    end in
  (ignored → r = (None, s, [])) ∧
  (¬ ignored →
     head (trace r) = Some SetLastSeenMessageIds ∧
     lastSeenMessageIds (final r) !! chatId = doc_id <$> head docs ∧
     closedChats (final r) = closedChats s).
Proof.
  intros r ignored. subst r ignored. destruct docs as [|d older].
  { split; [done|]. intros H. by destruct H. }
  split.
  - intros [Hown|Hseen].
    + by apply onMessagesSnapshot_own.
    + by apply onMessagesSnapshot_seen.
  - intros Hnot.
    assert (Hin : senderId (doc_data d) ≠ me) by (intros ?; apply Hnot; by left).
    assert (Hnew : lastSeenMessageIds cap !! chatId ≠ Some (doc_id d))
      by (intros ?; apply Hnot; by right).
    destruct (decide (Exists (is_for (senderId (doc_data d))) (chatWindows cap)))
      as [Hex|Hno].
    + rewrite onMessagesSnapshot_existing by done.
      unfold final, trace. simpl. by rewrite lookup_insert_eq.
    + apply Forall_Exists_neg in Hno.
      rewrite onMessagesSnapshot_absent by done.
      unfold final, trace. simpl. by rewrite lookup_insert_eq.
Qed.

Lemma or_else_nonempty (a : option string) (d : string) :
  d ≠ "" → or_else a d ≠ "".
Proof.
  intros Hd. unfold or_else. destruct a as [x|]; [|done].
  destruct (String.eqb_spec x ""); done.
Qed.

(** X9. Whatever the profile lookup gives, the profile built for the
    sender has the sender id as [id] and [uid] and a non-empty [role] and
    [status]. With a stored profile, an empty or missing stored name or
    photo falls back to the one embedded in the message, and a non-empty
    stored name is used. *)
Theorem senderUser_fallbacks (fetch : Outcome (option ProfileData))
    (now1 now2 : Timestamp) (B : string) (messageData : MessageData) :
  let u := senderUser fetch now1 now2 B messageData in
  UserProfile.id u = B ∧
  UserProfile.uid u = B ∧
  UserProfile.role u ≠ "" ∧
  UserProfile.status u ≠ "" ∧
  ∀ senderProfile, fetch = Resolved (Some senderProfile) →
    (truthy (p_displayName senderProfile) = false →
       UserProfile.displayName u = senderName messageData) ∧
    (truthy (p_displayName senderProfile) = true →
       UserProfile.displayName u = p_displayName senderProfile) ∧
    (truthy (p_photoURL senderProfile) = false →
       UserProfile.photoURL u = or_else (senderPhotoURL messageData) "") ∧
    (B ≠ "" → UserProfile.username u ≠ Some "" ∧ UserProfile.username u ≠ None).
Proof.
  intros u. subst u. split_and!.
  - by destruct fetch as [[?|]|].
  - by destruct fetch as [[?|]|].
  - destruct fetch as [[?|]|]; simpl; try done. by apply or_else_nonempty.
  - destruct fetch as [[?|]|]; simpl; try done. by apply or_else_nonempty.
  - intros p ->. simpl. unfold or_opt. split_and!.
    + by intros ->.
    + by intros ->.
    + by intros ->.
    + intros HB. split; [|done]. intros [= Heq].
      by apply (or_else_nonempty (p_username p) B HB).
Qed.

(** ** The chats handler *)

(** X10. The chats handler subscribes to a conversation of the snapshot
    exactly when its first participant other than the signed-in user
    exists, is not the empty string and is not in the captured closed
    set; a conversation whose participants are all the signed-in user
    gets no listener. *)
Theorem onChatsSnapshot_subscribes (me : string) (cap : Registry)
    (chats : list ChatDoc) (chat : ChatDoc) :
  (chat ∈ onChatsSnapshot me cap chats ↔
   chat ∈ chats ∧
   ∃ other, otherParticipantId me chat = Some other ∧
            other ≠ "" ∧ other ∉ closedChats cap) ∧
  (∀ other, otherParticipantId me chat = Some other →
            other ≠ me ∧ other ∈ participants chat) ∧
  (Forall (λ id, id = me) (participants chat) →
   chat ∉ onChatsSnapshot me cap chats).
Proof.
  assert (Hl : listens me cap chat = true ↔
               ∃ other, otherParticipantId me chat = Some other ∧
                        other ≠ "" ∧ other ∉ closedChats cap).
  { unfold listens. destruct (otherParticipantId me chat) as [o|].
    - destruct (String.eqb_spec o "") as [->|Ho].
      + split; [done|]. by intros (? & [= <-] & ? & _).
      + destruct (decide (o ∈ closedChats cap)) as [Hc|Hc].
        * split; [done|]. by intros (? & [= <-] & _ & ?).
        * split; [|done]. intros _. by exists o.
    - split; [done|]. by intros (? & ? & _). }
  assert (Hother : ∀ other, otherParticipantId me chat = Some other →
                            other ≠ me ∧ other ∈ participants chat).
  { intros other Hfind. apply find_some in Hfind as [Hin Hne].
    split; [by apply bool_decide_eq_true in Hne|by apply list_elem_of_In]. }
  split_and!; [|done|].
  - unfold onChatsSnapshot. rewrite list_elem_of_In, filter_In.
    rewrite <- list_elem_of_In, Hl. done.
  - intros Hall Hin. unfold onChatsSnapshot in Hin.
    apply list_elem_of_In, filter_In in Hin as [_ Hin].
    apply Hl in Hin as (other & Hfind & _).
    apply Hother in Hfind as [Hne Hin].
    rewrite Forall_forall in Hall. by apply Hne, Hall.
Qed.

(** ** The registry along a run *)

(** The registry after one input. *)
Lemma step_registry (me : string) (sys : System) (i : Input) :
  registry (step me sys i) =
  match i with
  | OpenChat vp user => final (openChat vp user (registry sys))
  | CloseChat U cleared => final (closeChat (Some me) cleared U (registry sys))
  | MinimizeChat U => final (minimizeChat U (registry sys))
  | UpdatePosition U position => final (updatePosition U position (registry sys))
  | MarkAsRead U unread commit =>
      final (markAsRead (Some me) unread commit U (registry sys))
  | ChatsSnapshot _ => registry sys
  | MessagesSnapshot chat docs =>
      if decide (chat ∈ listeners sys)
      then final (onMessagesSnapshot me (captured sys) (chat_id chat) docs
                    (registry sys))
      else registry sys
  | ProfileFetched k vp fetch now1 now2 =>
      match suspended sys !! k with
      | Some p => final (onProfileFetched vp fetch now1 now2 p (registry sys))
      | None => registry sys
      end
  end.
Proof.
  destruct i; simpl; unfold perform; rewrite ?settle_registry; try done.
  - case_decide; [by rewrite settle_registry|done].
  - destruct (suspended sys !! k); [by rewrite settle_registry|done].
Qed.

(** What the two halves of the message handler do to the registry: a
    [map] that keeps [id] and [user] of every window, or nothing, before
    the lookup; one window appended after it. *)
Lemma onMessagesSnapshot_final (me : string) (cap : Registry) (chatId : string)
    (docs : list MessageDoc) (s : Registry) :
  ∃ f : ChatWindow.t → ChatWindow.t,
    (∀ w, ChatWindow.id (f w) = ChatWindow.id w ∧
          ChatWindow.user (f w) = ChatWindow.user w) ∧
    chatWindows (final (onMessagesSnapshot me cap chatId docs s)) =
      f <$> chatWindows s ∧
    closedChats (final (onMessagesSnapshot me cap chatId docs s)) = closedChats s.
Proof.
  destruct docs as [|d older].
  { exists id. split_and!; [done| |done]. by rewrite list_fmap_id. }
  destruct (decide (senderId (doc_data d) = me)) as [Hown|Hin].
  { rewrite onMessagesSnapshot_own by done.
    exists id. split_and!; [done| |done]. by rewrite list_fmap_id. }
  destruct (decide (lastSeenMessageIds cap !! chatId = Some (doc_id d)))
    as [Hseen|Hnew].
  { rewrite onMessagesSnapshot_seen by done.
    exists id. split_and!; [done| |done]. by rewrite list_fmap_id. }
  destruct (decide (Exists (is_for (senderId (doc_data d))) (chatWindows cap)))
    as [Hex|Hno].
  - rewrite onMessagesSnapshot_existing by done. eexists.
    split_and!; [|reflexivity|reflexivity].
    intros w. simpl. by case_decide.
  - apply Forall_Exists_neg in Hno. rewrite onMessagesSnapshot_absent by done.
    exists id. split_and!; [done| |done]. unfold final. simpl.
    by rewrite list_fmap_id.
Qed.

Lemma step_closedChats (me : string) (sys : System) (i : Input) :
  closedChats (registry (step me sys i)) =
  closedChats (registry sys) ∪ list_to_set (closed_by [i]).
Proof.
  rewrite step_registry.
  destruct i as [vp u|V cleared|V|V pos|V unread commit|chats|chat docs
                |k vp fetch n1 n2]; simpl;
    rewrite ?(right_id_L ∅ (∪)); try done.
  - by rewrite closeChat_closedChats.
  - unfold_m. by destruct unread as [[|??]|], commit.
  - case_decide; [|done].
    by destruct (onMessagesSnapshot_final me (captured sys) (chat_id chat) docs
                   (registry sys)) as (f & _ & _ & ->).
  - by destruct (suspended sys !! k).
Qed.

(** X11. Along any run the closed set is the one the run started with
    plus the users closed by its [closeChat] calls: nothing takes a user
    out of it, [openChat] included. *)
Theorem closedChats_only_grow (me : string) (inputs : list Input) (sys : System) :
  closedChats (registry (run me sys inputs)) =
  closedChats (registry sys) ∪ list_to_set (closed_by inputs).
Proof.
  revert sys. induction inputs as [|i inputs IH]; intros sys.
  { simpl. by rewrite (right_id_L ∅ (∪)). }
  change (run me sys (i :: inputs)) with (run me (step me sys i) inputs).
  rewrite IH, step_closedChats.
  change (i :: inputs) with ([i] ++ inputs).
  unfold closed_by. rewrite omap_app, list_to_set_app_L.
  by rewrite (assoc_L (∪)).
Qed.

Section closed_for_good.
Context (me U : string).

(** [U] is closed, in the state and in the closure of the listeners, and
    no listener is subscribed to a conversation with [U]. *)
Let deaf (sys : System) : Prop :=
  U ∈ closedChats (registry sys) ∧
  U ∈ closedChats (captured sys) ∧
  Forall (λ chat, otherParticipantId me chat ≠ Some U) (listeners sys).

Lemma step_deaf sys i : deaf sys → deaf (step me sys i).
Proof.
  intros (Hreg & Hcap & Hls).
  assert (Hreg' : U ∈ closedChats (registry (step me sys i))).
  { rewrite step_closedChats. by apply elem_of_union_l. }
  assert (Hsettle : ∀ r t pending, U ∈ closedChats r →
            U ∈ closedChats (captured (settle sys r t pending)) ∧
            Forall (λ chat, otherParticipantId me chat ≠ Some U)
                   (listeners (settle sys r t pending))).
  { intros r t pending Hr. rewrite settle_captured, settle_listeners.
    by destruct (reruns_effect t). }
  split; [done|]. rewrite step_registry in Hreg'.
  destruct i as [vp u|V cleared|V|V pos|V unread commit|chats|chat docs
                |k vp fetch n1 n2]; cbn [step]; unfold perform;
    try (by apply Hsettle).
  - cbn [captured listeners]. split; [done|]. apply Forall_app. split; [done|].
    by apply onChatsSnapshot_skips.
  - case_decide; [by apply Hsettle|done].
  - destruct (suspended sys !! k); [by apply Hsettle|done].
Qed.

Lemma run_deaf inputs : ∀ sys, deaf sys → deaf (run me sys inputs).
Proof.
  induction inputs as [|i inputs IH]; intros sys Hsys; [done|].
  simpl. by apply IH, step_deaf.
Qed.

Lemma closeChat_deaf cleared sys : deaf (step me sys (CloseChat U cleared)).
Proof.
  change (step me sys (CloseChat U cleared))
    with (perform sys (closeChat (Some me) cleared U)).
  unfold perform, settle. rewrite closeChat_reruns_effect.
  unfold deaf. cbn [registry captured listeners].
  split_and!; [apply closeChat_closes..|done].
Qed.
End closed_for_good.

(** X12. Once [closeChat(U)] was called, no later input, an explicit
    [openChat(U)] included, makes the chats handler subscribe to a
    conversation whose counterpart is [U]; a message snapshot of such a
    conversation changes nothing. *)
Theorem closed_chat_never_listened (me U : string) (cleared : Outcome unit)
    (sys : System) (inputs : list Input) :
  let later := run me (step me sys (CloseChat U cleared)) inputs in
  U ∈ closedChats (registry later) ∧
  Forall (λ chat, otherParticipantId me chat ≠ Some U) (listeners later) ∧
  ∀ chat docs, otherParticipantId me chat = Some U →
    step me later (MessagesSnapshot chat docs) = later.
Proof.
  intros later.
  destruct (run_deaf me U inputs _ (closeChat_deaf me U cleared sys))
    as (Hreg & _ & Hls).
  fold later in Hreg, Hls. split_and!; [done..|].
  intros chat docs Hother. unfold step. rewrite decide_False; [done|].
  intros Hin. rewrite Forall_forall in Hls. by apply (Hls chat).
Qed.

(** ** Windows along a run *)

Lemma run_app (me : string) (sys : System) (inputs1 inputs2 : list Input) :
  run me sys (inputs1 ++ inputs2) = run me (run me sys inputs1) inputs2.
Proof. apply foldl_app. Qed.

Section keyed.
Context (f : ChatWindow.t → ChatWindow.t).
Hypothesis keeps : ∀ w, ChatWindow.id (f w) = ChatWindow.id w ∧
                        ChatWindow.user (f w) = ChatWindow.user w.

Lemma keyed_uid w : ChatWindow.uid (f w) = ChatWindow.uid w.
Proof. unfold ChatWindow.uid. by destruct (keeps w) as [_ ->]. Qed.

Lemma keyed_id_is_uid ws :
  Forall (λ w, ChatWindow.id w = ChatWindow.uid w) ws →
  Forall (λ w, ChatWindow.id w = ChatWindow.uid w) (f <$> ws).
Proof.
  intros H. apply Forall_fmap. eapply Forall_impl; [exact H|].
  intros w Hw. simpl. rewrite keyed_uid. by destruct (keeps w) as [-> _].
Qed.
End keyed.

(** What one input does to the window list: a [map] that keeps [id] and
    [user], then possibly a [filter] on the user or one appended window
    whose [id] is its user's [uid]. *)
Lemma step_chatWindows (me : string) (sys : System) (i : Input) :
  ∃ (f : ChatWindow.t → ChatWindow.t) (extra : list ChatWindow.t),
    (∀ w, ChatWindow.id (f w) = ChatWindow.id w ∧
          ChatWindow.user (f w) = ChatWindow.user w) ∧
    Forall (λ w, ChatWindow.id w = ChatWindow.uid w) extra ∧
    (length extra ≤ 1)%nat ∧
    chatWindows (registry (step me sys i)) =
      match i with
      | CloseChat U _ =>
          filter (λ w, ¬ is_for U w) (f <$> chatWindows (registry sys))
      | _ => (f <$> chatWindows (registry sys)) ++ extra
      end.
Proof.
  rewrite step_registry.
  destruct i as [vp u|V cleared|V|V pos|V unread commit|chats|chat docs
                |k vp fetch n1 n2].
  - unfold_m. cbn [chatWindows].
    destruct (decide (Exists (is_for (UserProfile.uid u))
                        (chatWindows (registry sys)))) as [Hex|Hno].
    + rewrite openChat_update_existing by done.
      exists (reopened u), []. rewrite app_nil_r.
      split_and!; [|done|simpl; lia|done].
      intros w. unfold reopened. by case_decide.
    + apply Forall_Exists_neg in Hno. rewrite openChat_update_new by done.
      exists id. eexists. rewrite list_fmap_id.
      split_and!; [done| | |reflexivity]; [by repeat constructor|simpl; lia].
  - exists id, []. rewrite list_fmap_id, closeChat_chatWindows.
    split_and!; [done|done|simpl; lia|done].
  - unfold_m. cbn [chatWindows]. eexists _, []. rewrite app_nil_r.
    split_and!; [|done|simpl; lia|reflexivity]. intros w. simpl. by case_decide.
  - unfold_m. cbn [chatWindows]. eexists _, []. rewrite app_nil_r.
    split_and!; [|done|simpl; lia|reflexivity]. intros w. simpl. by case_decide.
  - rewrite markAsRead_chatWindows. eexists _, []. rewrite app_nil_r.
    split_and!; [|done|simpl; lia|reflexivity]. intros w. simpl. by case_decide.
  - exists id, []. rewrite list_fmap_id, app_nil_r.
    split_and!; [done|done|simpl; lia|done].
  - case_decide.
    + destruct (onMessagesSnapshot_final me (captured sys) (chat_id chat) docs
                  (registry sys)) as (f & Hf & -> & _).
      exists f, []. rewrite app_nil_r. split_and!; [done|done|simpl; lia|done].
    + exists id, []. rewrite list_fmap_id, app_nil_r.
      split_and!; [done|done|simpl; lia|done].
  - destruct (suspended sys !! k) as [p|].
    + unfold_m. cbn [chatWindows]. exists id. eexists. rewrite list_fmap_id.
      split_and!; [done| | |reflexivity]; [|simpl; lia].
      repeat constructor. unfold ChatWindow.uid. simpl.
      by rewrite senderUser_uid.
    + exists id, []. rewrite list_fmap_id, app_nil_r.
      split_and!; [done|done|simpl; lia|done].
Qed.

Lemma step_id_is_uid (me : string) (sys : System) (i : Input) :
  Forall (λ w, ChatWindow.id w = ChatWindow.uid w) (chatWindows (registry sys)) →
  Forall (λ w, ChatWindow.id w = ChatWindow.uid w)
         (chatWindows (registry (step me sys i))).
Proof.
  intros Hinv.
  destruct (step_chatWindows me sys i) as (f & extra & Hf & Hextra & _ & Heq).
  rewrite Heq. pose proof (keyed_id_is_uid f Hf _ Hinv) as Hmap.
  destruct i; try (apply Forall_app; by split).
  apply Forall_forall. intros w Hw.
  apply list_elem_of_filter in Hw as [_ Hw].
  rewrite Forall_forall in Hmap. by apply Hmap.
Qed.

(** X13. In every state reached from the empty registry, the [id] of a
    window is the [uid] of its user, whether the window was opened
    explicitly or created for an inbound message. *)
Theorem window_id_is_user_uid (me : string) (inputs : list Input) :
  Forall (λ w, ChatWindow.id w = ChatWindow.uid w)
         (chatWindows (registry (run me start inputs))).
Proof.
  assert (H : ∀ sys,
    Forall (λ w, ChatWindow.id w = ChatWindow.uid w) (chatWindows (registry sys)) →
    Forall (λ w, ChatWindow.id w = ChatWindow.uid w)
           (chatWindows (registry (run me sys inputs)))).
  { induction inputs as [|i inputs IH]; intros sys Hsys; [done|].
    simpl. by apply IH, step_id_is_uid. }
  apply H. constructor.
Qed.

(** X14. As long as [closeChat] is not called, windows are never removed
    nor reordered: the users of the windows the run started with are a
    prefix of the users of the windows it ends with. *)
Theorem windows_only_appended (me : string) (inputs : list Input) (sys : System) :
  closed_by inputs = [] →
  (ChatWindow.uid <$> chatWindows (registry sys)) `prefix_of`
  (ChatWindow.uid <$> chatWindows (registry (run me sys inputs))).
Proof.
  revert sys. induction inputs as [|i inputs IH]; intros sys Hnone; [done|].
  change (run me sys (i :: inputs)) with (run me (step me sys i) inputs).
  assert (Hi : closed_by [i] = [] ∧ closed_by inputs = []).
  { change (i :: inputs) with ([i] ++ inputs) in Hnone.
    unfold closed_by in *. rewrite omap_app in Hnone.
    by apply app_eq_nil in Hnone. }
  destruct Hi as [Hi Hrest].
  etrans; [|by apply IH].
  destruct (step_chatWindows me sys i) as (f & extra & Hf & _ & _ & Heq).
  rewrite Heq. destruct i; try discriminate Hi;
    rewrite fmap_app, (uids_fmap_keyed f) by (apply keyed_uid, Hf);
    by apply prefix_app_r.
Qed.

(** ** Listeners and their closure *)

Lemma operation_reruns_effect (me : string) (i : Input) (s : Registry) :
  is_operation i = true →
  ∃ m : M unit,
    (∀ sys, step me sys i = perform sys m) ∧
    reruns_effect (trace (m s)) = true.
Proof.
  intros Hop. destruct i as [vp u|V cleared|V|V pos|V unread commit| | |];
    try discriminate Hop; eexists; (split; [reflexivity|]).
  - reflexivity.
  - apply closeChat_reruns_effect.
  - reflexivity.
  - reflexivity.
  - unfold_m. by destruct unread as [[|??]|], commit.
Qed.

(** X15. Each of the five exported operations re-runs the subscription
    effect, also when it changes nothing (a user without a window):
    every message listener is released, and the listeners subscribed
    next close over the registry the operation left. *)
Theorem operation_releases_listeners (me : string) (sys : System) (i : Input) :
  is_operation i = true →
  listeners (step me sys i) = [] ∧
  captured (step me sys i) = registry (step me sys i) ∧
  suspended (step me sys i) = suspended sys.
Proof.
  intros Hop.
  destruct (operation_reruns_effect me i (registry sys) Hop) as (m & Hstep & Hre).
  rewrite Hstep. unfold perform.
  rewrite settle_listeners, settle_captured, settle_registry, settle_suspended.
  by rewrite Hre.
Qed.

Lemma step_in_sync (me : string) (sys : System) (i : Input) :
  chatWindows (captured sys) = chatWindows (registry sys) →
  closedChats (captured sys) = closedChats (registry sys) →
  chatWindows (captured (step me sys i)) = chatWindows (registry (step me sys i)) ∧
  closedChats (captured (step me sys i)) = closedChats (registry (step me sys i)).
Proof.
  intros Hw Hc.
  destruct (is_operation i) eqn:Hop.
  { destruct (operation_reruns_effect me i (registry sys) Hop) as (m & -> & Hre).
    unfold perform. by rewrite settle_captured, settle_registry, Hre. }
  destruct i as [| | | | |chats|chat docs|k vp fetch n1 n2];
    try discriminate Hop; cbn [step].
  - done.
  - case_decide; [|done].
    rewrite settle_captured, settle_registry.
    destruct (reruns_effect _) eqn:Hre; [done|].
    destruct docs as [|d older]; [done|].
    destruct (decide (senderId (doc_data d) = me)) as [Hown|Hin].
    { by rewrite onMessagesSnapshot_own. }
    destruct (decide (lastSeenMessageIds (captured sys) !! chat_id chat
                      = Some (doc_id d))) as [Hseen|Hnew].
    { by rewrite onMessagesSnapshot_seen. }
    destruct (decide (Exists (is_for (senderId (doc_data d)))
                        (chatWindows (captured sys)))) as [Hex|Hno].
    + rewrite onMessagesSnapshot_existing in Hre by done. discriminate Hre.
    + apply Forall_Exists_neg in Hno.
      by rewrite onMessagesSnapshot_absent.
  - destruct (suspended sys !! k); [|done].
    by rewrite settle_captured, settle_registry.
Qed.

(** X16. In every state reached from the empty registry, the window list
    and the closed set the listeners close over are those of the current
    state: of the three captured values only the cursor can be out of
    date. *)
Theorem closure_stale_only_in_cursor (me : string) (inputs : list Input) :
  let sys := run me start inputs in
  chatWindows (captured sys) = chatWindows (registry sys) ∧
  closedChats (captured sys) = closedChats (registry sys).
Proof.
  assert (H : ∀ sys0,
    chatWindows (captured sys0) = chatWindows (registry sys0) ∧
    closedChats (captured sys0) = closedChats (registry sys0) →
    chatWindows (captured (run me sys0 inputs))
      = chatWindows (registry (run me sys0 inputs)) ∧
    closedChats (captured (run me sys0 inputs))
      = closedChats (registry (run me sys0 inputs))).
  { induction inputs as [|i inputs IH]; intros sys0 [Hw Hc]; [done|].
    simpl. by apply IH, step_in_sync. }
  by apply H.
Qed.

(** X17. The chats handler never releases a listener: [n] deliveries of
    a chats snapshot within one run of the effect leave [n] listeners on
    each conversation it subscribes to, and do not touch the registry. *)
Theorem chats_snapshots_pile_up_listeners (me : string) (chats : list ChatDoc)
    (n : nat) (sys : System) :
  let sys' := run me sys (replicate n (ChatsSnapshot chats)) in
  listeners sys' =
    listeners sys ++ mjoin (replicate n (onChatsSnapshot me (captured sys) chats)) ∧
  registry sys' = registry sys ∧
  captured sys' = captured sys.
Proof.
  revert sys. induction n as [|n IH]; intros sys sys'; subst sys'.
  { simpl. by rewrite app_nil_r. }
  rewrite replicate_S.
  change (run me sys (ChatsSnapshot chats :: replicate n (ChatsSnapshot chats)))
    with (run me (step me sys (ChatsSnapshot chats))
            (replicate n (ChatsSnapshot chats))).
  destruct (IH (step me sys (ChatsSnapshot chats))) as (-> & -> & ->).
  cbn [step listeners registry captured]. simpl.
  by rewrite <- app_assoc.
Qed.

(** ** Counting unread messages *)

(** Whether the chats handler subscribes depends on the closed set only. *)
Lemma listens_closedChats (me : string) (cap cap' : Registry) (chat : ChatDoc) :
  closedChats cap = closedChats cap' → listens me cap chat = listens me cap' chat.
Proof. intros H. unfold listens. by rewrite H. Qed.

(** One round after the effect ran: the chats snapshot subscribes, the
    message snapshot is handled for a sender that has a window. *)
Lemma delivery_round (me : string) (chats : list ChatDoc) (chat : ChatDoc)
    (d : MessageDoc) (older : list MessageDoc) (sys : System) :
  senderId (doc_data d) ≠ me →
  captured sys = registry sys →
  chat ∈ chats →
  listens me (registry sys) chat = true →
  Exists (is_for (senderId (doc_data d))) (chatWindows (registry sys)) →
  lastSeenMessageIds (registry sys) !! chat_id chat ≠ Some (doc_id d) →
  let sys' := run me sys [ChatsSnapshot chats; MessagesSnapshot chat (d :: older)] in
  registry sys' =
    {| chatWindows :=
         (λ w, if decide (is_for (senderId (doc_data d)) w)
               then ChatWindow.with_unreadCount (ChatWindow.unreadCount w + 1) w
               else w) <$> chatWindows (registry sys);
       closedChats := closedChats (registry sys);
       lastSeenMessageIds :=
         <[chat_id chat := doc_id d]> (lastSeenMessageIds (registry sys)) |} ∧
  captured sys' = registry sys'.
Proof.
  intros Hin Hsync Hchat Hlistens Hex Hnew sys'. subst sys'.
  change (run me sys [ChatsSnapshot chats; MessagesSnapshot chat (d :: older)])
    with (step me (step me sys (ChatsSnapshot chats))
            (MessagesSnapshot chat (d :: older))).
  set (sys1 := step me sys (ChatsSnapshot chats)).
  assert (Hl : chat ∈ listeners sys1).
  { subst sys1. cbn [step listeners]. apply elem_of_app. right.
    unfold onChatsSnapshot. apply list_elem_of_In, filter_In.
    split; [by apply list_elem_of_In|]. by rewrite Hsync. }
  assert (Hcap : captured sys1 = registry sys) by (subst sys1; by cbn).
  assert (Hreg : registry sys1 = registry sys) by (subst sys1; by cbn).
  unfold step. rewrite decide_True by done. rewrite Hcap, Hreg.
  rewrite settle_registry, settle_captured.
  rewrite onMessagesSnapshot_existing by done.
  unfold final, trace. cbn [fst snd].
  by change (reruns_effect [SetLastSeenMessageIds; SetChatWindows]) with true.
Qed.

(** X18. After each re-run of the effect, a message snapshot whose
    latest message is from a sender [B] with a window adds one to the
    unread count of [B] whenever the id of that message differs from the
    id handled just before in the conversation: [n] such snapshots add
    [n], even when an id comes back that was handled earlier. The closed
    set does not change. *)
Theorem unread_counts_each_new_latest (me B : string) (chats : list ChatDoc)
    (chat : ChatDoc) (snaps : list (MessageDoc * list MessageDoc))
    (sys : System) :
  B ≠ me →
  Forall (λ snap, senderId (doc_data snap.1) = B) snaps →
  captured sys = registry sys →
  chat ∈ chats →
  listens me (registry sys) chat = true →
  Exists (is_for B) (chatWindows (registry sys)) →
  alternating (lastSeenMessageIds (registry sys) !! chat_id chat)
              ((λ snap, doc_id snap.1) <$> snaps) →
  let sys' := run me sys (deliveries chats chat snaps) in
  chatWindows (registry sys') =
    (λ w, if decide (is_for B w)
          then ChatWindow.with_unreadCount
                 (ChatWindow.unreadCount w + length snaps) w
          else w) <$> chatWindows (registry sys) ∧
  closedChats (registry sys') = closedChats (registry sys).
Proof.
  intros Hme. revert sys.
  induction snaps as [|[d older] rest IH];
    intros sys HB Hsync Hchat Hlistens Hex Halt sys'; subst sys'.
  { simpl. split; [|done]. symmetry. apply fmap_fixed, Forall_forall.
    intros w _. simpl. case_decide; [|done].
    destruct w. unfold ChatWindow.with_unreadCount. simpl. f_equal. lia. }
  apply Forall_cons in HB as [Hd HB]. simpl in Hd, Halt.
  destruct Halt as [Hnew Halt].
  unfold deliveries. rewrite bind_cons. fold (deliveries chats chat rest).
  rewrite run_app. cbn [fst snd].
  destruct (delivery_round me chats chat d older sys) as [Hreg Hcap];
    [by rewrite Hd|done|done|done|by rewrite Hd|done|].
  set (sys1 := run me sys
                 [ChatsSnapshot chats; MessagesSnapshot chat (d :: older)]) in *.
  destruct (IH sys1) as [Hws Hcl]; [done|done|done| | | |].
  - rewrite <- Hlistens. apply listens_closedChats. by rewrite Hreg.
  - rewrite Hreg. cbn [chatWindows]. apply has_window_uids.
    rewrite uids_fmap_keyed by (intros w; by case_decide).
    by apply has_window_uids.
  - rewrite Hreg. cbn [lastSeenMessageIds]. by rewrite lookup_insert_eq.
  - rewrite Hws, Hcl, Hreg. cbn [chatWindows closedChats]. split; [|done].
    rewrite <- list_fmap_compose. apply list_fmap_ext. intros _ w _.
    simpl. rewrite Hd. destruct (decide (is_for B w)) as [Hw|Hw].
    + rewrite decide_True by done.
      destruct w. unfold ChatWindow.with_unreadCount. simpl. f_equal. lia.
    + by rewrite decide_False.
Qed.

(** ** Layout after a close *)

Lemma length_filter_split (U : string) (ws : list ChatWindow.t) :
  (length (filter (λ w, ¬ is_for U w) ws) + length (windows_for U ws))%nat
  = length ws.
Proof.
  unfold windows_for. induction ws as [|w ws IH]; [done|].
  destruct (decide (is_for U w)) as [Hw|Hw].
  - rewrite (filter_cons_False (λ w, ¬ is_for U w)) by auto.
    rewrite (filter_cons_True (is_for U)) by done. simpl. lia.
  - rewrite (filter_cons_True (λ w, ¬ is_for U w)) by done.
    rewrite (filter_cons_False (is_for U)) by done. simpl. lia.
Qed.

(** X19. The position of a new window depends on the number of open
    windows only. When the last window [wl] of the list was placed by the
    layout and a window before it is closed, the next window opened takes
    the very position of [wl], which is still open. *)
Theorem closed_slot_reused (vp : Viewport) (user : option string)
    (cleared : Outcome unit) (U : string) (v : UserProfile.t)
    (front : list ChatWindow.t) (wl : ChatWindow.t) (s : Registry) :
  chatWindows s = front ++ [wl] →
  ChatWindow.position wl = newPosition vp front →
  length (windows_for U front) = 1%nat →
  ¬ is_for U wl →
  Forall (λ w, ¬ is_for (UserProfile.uid v) w) (chatWindows s) →
  let s' := final (openChat vp v (final (closeChat user cleared U s))) in
  ∃ wv,
    chatWindows s' = filter (λ w, ¬ is_for U w) front ++ [wl; wv] ∧
    ChatWindow.user wv = v ∧
    ChatWindow.position wv = ChatWindow.position wl.
Proof.
  intros Hws Hpos Hone HUl Hfresh s'. subst s'.
  assert (Hclosed : chatWindows (final (closeChat user cleared U s)) =
                    filter (λ w, ¬ is_for U w) front ++ [wl]).
  { rewrite closeChat_chatWindows, Hws, filter_app.
    by rewrite (filter_cons_True _ wl) by done. }
  assert (Hv : Forall (λ w, ¬ is_for (UserProfile.uid v) w)
                 (filter (λ w, ¬ is_for U w) front ++ [wl])).
  { rewrite <- Hclosed, closeChat_chatWindows. apply Forall_forall.
    intros w Hw. apply list_elem_of_filter in Hw as [_ Hw].
    rewrite Forall_forall in Hfresh. by apply Hfresh. }
  unfold openChat, final, setChatWindows at 1. cbn [fst snd chatWindows].
  fold (final (closeChat user cleared U s)). rewrite Hclosed.
  rewrite openChat_update_new by done.
  eexists. split; [by rewrite <- app_assoc|]. split; [done|].
  rewrite Hpos. unfold opened_window, newPosition. cbn [ChatWindow.position].
  pose proof (length_filter_split U front) as Hlen.
  rewrite length_app. simpl.
  replace (length (filter (λ w, ¬ is_for U w) front) + 1)%nat
    with (length front) by lia.
  done.
Qed.

(** ** RightSidebar *)

(** X20. Whatever happens to a mounted sidebar, the message popup is
    never open: the component has no call that opens it. Suggested
    creators are shown exactly when the current path is not
    [/messages], whatever the properties passed in. *)
Theorem sidebar_popup_never_opens (props : RightSidebar.Props)
    (pathname : string) (events : list RightSidebar.Event) :
  let mounted :=
    foldl RightSidebar.step
      {| RightSidebar.props := props;
         RightSidebar.pathname := pathname;
         RightSidebar.isMessagePopupOpen := RightSidebar.mount |} events in
  RightSidebar.popupIsOpen (RightSidebar.view mounted) = false ∧
  (RightSidebar.showsSuggestedCreators (RightSidebar.view mounted) = true ↔
   RightSidebar.pathname mounted ≠ "/messages").
Proof.
  intros mounted.
  assert (Hclosed : RightSidebar.isMessagePopupOpen mounted = false).
  { subst mounted. generalize props, pathname.
    assert (H : ∀ m, RightSidebar.isMessagePopupOpen m = false →
                RightSidebar.isMessagePopupOpen (foldl RightSidebar.step m events)
                = false).
    { induction events as [|e events IH]; intros m Hm; [done|].
      simpl. apply IH. by destruct e. }
    intros p0 path0. by apply H. }
  split; [done|]. unfold RightSidebar.view, RightSidebar.render. simpl.
  destruct (String.eqb_spec (RightSidebar.pathname mounted) "/messages");
    split; intros H; done.
Qed.

(** ** No window for the signed-in user *)

Lemma step_no_self_window (me : string) (sys : System) (i : Input) :
  ¬ reopens me i →
  Forall (λ p, s_senderId p ≠ me) (suspended sys) →
  Forall (λ w, ¬ is_for me w) (chatWindows (registry sys)) →
  Forall (λ p, s_senderId p ≠ me) (suspended (step me sys i)) ∧
  Forall (λ w, ¬ is_for me w) (chatWindows (registry (step me sys i))).
Proof.
  intros Hre Hsus Hws.
  destruct (is_operation i) eqn:Hop.
  { assert (Hsame : suspended (step me sys i) = suspended sys).
    { destruct (operation_reruns_effect me i (registry sys) Hop) as (m & -> & _).
      unfold perform. by rewrite settle_suspended. }
    rewrite Hsame. split; [done|].
    destruct (step_chatWindows me sys i) as (f & extra & Hf & _ & _ & Heq).
    rewrite Heq.
    pose proof (no_window_fmap_keyed me f _ (keyed_uid f Hf) Hws) as Hmap.
    destruct i as [vp u|V cleared| | | | | |]; try discriminate Hop.
    - rewrite <- Heq, step_registry. unfold_m. cbn [chatWindows].
      unfold openChat_update. case_decide.
      + apply no_window_fmap_keyed; [|done]. intros w. by case_decide.
      + apply Forall_app. split; [done|]. by repeat constructor.
    - apply Forall_forall. intros w Hw.
      apply list_elem_of_filter in Hw as [_ Hw].
      rewrite Forall_forall in Hmap. by apply Hmap.
    - rewrite <- Heq, step_registry. unfold_m. cbn [chatWindows].
      apply no_window_fmap_keyed; [|done]. intros w. by case_decide.
    - rewrite <- Heq, step_registry. unfold_m. cbn [chatWindows].
      apply no_window_fmap_keyed; [|done]. intros w. by case_decide.
    - rewrite <- Heq, step_registry, markAsRead_chatWindows.
      apply no_window_fmap_keyed; [|done]. intros w. by case_decide. }
  destruct i as [| | | | |chats|chat docs|k vp fetch n1 n2];
    try discriminate Hop; cbn [step].
  - done.
  - case_decide; [|done]. rewrite settle_suspended, settle_registry.
    destruct docs as [|d older]; [by rewrite app_nil_r|].
    destruct (decide (senderId (doc_data d) = me)) as [Hown|Hin].
    { rewrite onMessagesSnapshot_own by done. by rewrite app_nil_r. }
    destruct (decide (lastSeenMessageIds (captured sys) !! chat_id chat
                      = Some (doc_id d))) as [Hseen|Hnew].
    { rewrite onMessagesSnapshot_seen by done. by rewrite app_nil_r. }
    destruct (decide (Exists (is_for (senderId (doc_data d)))
                        (chatWindows (captured sys)))) as [Hex|Hno].
    + rewrite onMessagesSnapshot_existing by done.
      unfold result, final. cbn. rewrite app_nil_r. split; [done|].
      apply no_window_fmap_keyed; [|done]. intros w. by case_decide.
    + apply Forall_Exists_neg in Hno.
      rewrite onMessagesSnapshot_absent by done.
      unfold result, final. cbn. split; [|done].
      apply Forall_app. split; [done|]. by repeat constructor.
  - destruct (suspended sys !! k) as [p|] eqn:Hk; [|done].
    rewrite settle_suspended, settle_registry.
    split; [by apply Forall_delete|].
    unfold_m. cbn [chatWindows fst snd]. apply Forall_app. split; [done|].
    repeat constructor. unfold is_for, ChatWindow.uid. simpl.
    rewrite senderUser_uid. rewrite Forall_forall in Hsus.
    by eapply Hsus, list_elem_of_lookup_2.
Qed.

(** X21. The handler never creates a window for the signed-in user: in
    every state reached from the empty registry without an explicit
    [openChat] of the signed-in user, no window belongs to them. *)
Theorem no_window_for_self (me : string) (inputs : list Input) :
  Forall (λ i, ¬ reopens me i) inputs →
  Forall (λ w, ¬ is_for me w) (chatWindows (registry (run me start inputs))).
Proof.
  assert (H : ∀ sys,
    Forall (λ i, ¬ reopens me i) inputs →
    Forall (λ p, s_senderId p ≠ me) (suspended sys) →
    Forall (λ w, ¬ is_for me w) (chatWindows (registry sys)) →
    Forall (λ w, ¬ is_for me w) (chatWindows (registry (run me sys inputs)))).
  { induction inputs as [|i inputs IH]; intros sys Hre Hsus Hws; [done|].
    apply Forall_cons in Hre as [Hi Hre].
    destruct (step_no_self_window me sys i Hi Hsus Hws) as [Hsus' Hws'].
    simpl. by apply IH. }
  intros Hre. apply H; [done|constructor|constructor].
Qed.

(** ** Instances of the further properties *)

Lemma absent_window_noop_witness :
  let s := final (openChat Session.viewport Session.bob initial) in
  Forall (λ w, ¬ is_for "carol" w) (chatWindows s) ∧
  final (minimizeChat "carol" s) = s ∧
  final (updatePosition "carol" {| Position.x := 5; Position.y := 7 |} s) = s ∧
  final (markAsRead (Some "alice") Rejected (Resolved tt) "carol" s) = s.
Proof.
  intros s.
  assert (H : Forall (λ w, ¬ is_for "carol" w) (chatWindows s)).
  { apply Forall_cons. split; [discriminate|apply Forall_nil_2]. }
  split; [exact H|].
  exact (absent_window_noop "carol" {| Position.x := 5; Position.y := 7 |}
           (Some "alice") Rejected (Resolved tt) s H).
Defined.

Lemma openChat_existing_keeps_profile_witness :
  let s := final (openChat Session.viewport Session.bob initial) in
  Exists (is_for "bob") (chatWindows s) ∧
  let s' := final (openChat Session.viewport Session.bob s) in
  closedChats s' = closedChats s ∧
  lastSeenMessageIds s' = lastSeenMessageIds s ∧
  length (chatWindows s') = length (chatWindows s) ∧
  ∀ k w, chatWindows s !! k = Some w →
    ∃ w', chatWindows s' !! k = Some w' ∧
      (is_for "bob" w →
         ChatWindow.id w' = ChatWindow.id w ∧
         ChatWindow.user w' = ChatWindow.user w ∧
         ChatWindow.position w' = ChatWindow.position w ∧
         ChatWindow.isMinimized w' = false ∧
         ChatWindow.unreadCount w' = 0) ∧
      (¬ is_for "bob" w → w' = w).
Proof.
  intros s.
  assert (H : Exists (is_for "bob") (chatWindows s)).
  { apply Exists_cons_hd. reflexivity. }
  split; [exact H|].
  exact (openChat_existing_keeps_profile Session.viewport Session.bob s H).
Defined.

Lemma windows_only_appended_witness :
  let sys := step "alice" start (OpenChat Session.viewport Session.carol) in
  closed_by Session.open_while_fetching = [] ∧
  (ChatWindow.uid <$> chatWindows (registry sys)) `prefix_of`
  (ChatWindow.uid <$>
     chatWindows (registry (run "alice" sys Session.open_while_fetching))).
Proof.
  intros sys.
  assert (H : closed_by Session.open_while_fetching = []) by reflexivity.
  split; [exact H|].
  exact (windows_only_appended "alice" Session.open_while_fetching sys H).
Defined.

Lemma operation_releases_listeners_witness :
  let sys := step "alice" start (ChatsSnapshot [Session.conversation]) in
  let i := MinimizeChat "bob" in
  is_operation i = true ∧
  listeners (step "alice" sys i) = [] ∧
  captured (step "alice" sys i) = registry (step "alice" sys i) ∧
  suspended (step "alice" sys i) = suspended sys.
Proof.
  intros sys i.
  assert (H : is_operation i = true) by reflexivity.
  split; [exact H|].
  exact (operation_releases_listeners "alice" sys i H).
Defined.

Lemma unread_counts_each_new_latest_witness :
  let sys := step "alice" start (OpenChat Session.viewport Session.bob) in
  let snaps := Session.write_write_delete in
  "bob" ≠ "alice" ∧
  Forall (λ snap, senderId (doc_data snap.1) = "bob") snaps ∧
  captured sys = registry sys ∧
  Session.conversation ∈ [Session.conversation] ∧
  listens "alice" (registry sys) Session.conversation = true ∧
  Exists (is_for "bob") (chatWindows (registry sys)) ∧
  alternating (lastSeenMessageIds (registry sys) !! "alice_bob")
              ((λ snap, doc_id snap.1) <$> snaps) ∧
  let sys' :=
    run "alice" sys (deliveries [Session.conversation] Session.conversation snaps) in
  chatWindows (registry sys') =
    (λ w, if decide (is_for "bob" w)
          then ChatWindow.with_unreadCount (ChatWindow.unreadCount w + 3) w
          else w) <$> chatWindows (registry sys) ∧
  closedChats (registry sys') = closedChats (registry sys).
Proof.
  intros sys snaps.
  assert (H1 : "bob" ≠ "alice") by discriminate.
  assert (H2 : Forall (λ snap, senderId (doc_data snap.1) = "bob") snaps).
  { repeat (apply Forall_cons; split; [reflexivity|]). apply Forall_nil_2. }
  assert (H3 : captured sys = registry sys) by reflexivity.
  assert (H4 : Session.conversation ∈ [Session.conversation])
    by apply list_elem_of_here.
  assert (H5 : listens "alice" (registry sys) Session.conversation = true)
    by reflexivity.
  assert (H6 : Exists (is_for "bob") (chatWindows (registry sys))).
  { apply Exists_cons_hd. reflexivity. }
  assert (H7 : alternating (lastSeenMessageIds (registry sys) !! "alice_bob")
                 ((λ snap, doc_id snap.1) <$> snaps)).
  { simpl. split_and!; [discriminate..|exact I]. }
  split_and!; [exact H1|exact H2|exact H3|exact H4|exact H5|exact H6|exact H7|].
  exact (unread_counts_each_new_latest "alice" "bob" [Session.conversation]
           Session.conversation snaps sys H1 H2 H3 H4 H5 H6 H7).
Defined.

Lemma closed_slot_reused_witness :
  let s := openChats Session.viewport [Session.carol; Session.bob] initial in
  let front := [opened_window Session.viewport Session.carol 0] in
  let wl := opened_window Session.viewport Session.bob 1 in
  chatWindows s = front ++ [wl] ∧
  ChatWindow.position wl = newPosition Session.viewport front ∧
  length (windows_for "carol" front) = 1%nat ∧
  ¬ is_for "carol" wl ∧
  Forall (λ w, ¬ is_for "dave" w) (chatWindows s) ∧
  let s' := final (openChat Session.viewport Session.dave
                     (final (closeChat (Some "alice") (Resolved tt) "carol" s))) in
  ∃ wv,
    chatWindows s' = filter (λ w, ¬ is_for "carol" w) front ++ [wl; wv] ∧
    ChatWindow.user wv = Session.dave ∧
    ChatWindow.position wv = ChatWindow.position wl.
Proof.
  intros s front wl.
  assert (H1 : chatWindows s = front ++ [wl]) by reflexivity.
  assert (H2 : ChatWindow.position wl = newPosition Session.viewport front)
    by reflexivity.
  assert (H3 : length (windows_for "carol" front) = 1%nat) by reflexivity.
  assert (H4 : ¬ is_for "carol" wl) by discriminate.
  assert (H5 : Forall (λ w, ¬ is_for "dave" w) (chatWindows s)).
  { repeat (apply Forall_cons; split; [discriminate|]). apply Forall_nil_2. }
  split_and!; [exact H1|exact H2|exact H3|exact H4|exact H5|].
  exact (closed_slot_reused Session.viewport (Some "alice") (Resolved tt) "carol"
           Session.dave front wl s H1 H2 H3 H4 H5).
Defined.

Lemma no_window_for_self_witness :
  Forall (λ i, ¬ reopens "alice" i) Session.redelivery ∧
  Forall (λ w, ¬ is_for "alice" w)
         (chatWindows (registry (run "alice" start Session.redelivery))).
Proof.
  assert (H : Forall (λ i, ¬ reopens "alice" i) Session.redelivery).
  { repeat (apply Forall_cons; split; [intros []|]). apply Forall_nil_2. }
  split; [exact H|].
  exact (no_window_for_self "alice" Session.redelivery H).
Defined.
